(** * The install orchestrator of yarn ([src/cli/commands/install.js])

    A shallow embedding of the [Install] class and of the [run] entry point,
    together with the properties the design document states about them.

    Conventions of the embedding.
    - JavaScript objects used as dictionaries and enumerated with [for .. in]
      or [Object.keys] are association lists in enumeration order; objects
      that are only indexed are [gmap]s; a [Set] is a [gset].
    - The engines the orchestrator sequences (resolver, fetcher, linker,
      script runner, integrity checker, lockfile, reporter, config) live in
      other modules.  What they answer is supplied by the records [Config],
      [Lockfile] and [Engines]; every call that acts on the outside is
      logged in the trace of the world, and what an engine does to the disk
      shows there only.  Calls to an engine are taken to return: an
      exception escaping an engine is propagated verbatim by every function
      below and is not modelled, apart from [getStrictResolvedPattern],
      whose whole purpose is to throw.
    - [async]/[await] is sequential composition: the orchestrator awaits each
      call before issuing the next one. *)

From Stdlib Require Import String Ascii List ZArith Bool Lia.
From stdpp Require Import base option list gmap strings.
Import ListNotations.
Local Open Scope string_scope.
Local Open Scope list_scope.

(** ** JavaScript values and strings *)

(** The values a raw flag or a config option can hold. *)
Inductive JsVal : Type :=
| JsUndefined
| JsNull
| JsBool (b : bool)
| JsNum (n : Z)
| JsStr (s : string)
| JsObj.

(** [!!v] *)
Definition truthy (v : JsVal) : bool :=
  match v with
  | JsUndefined | JsNull => false
  | JsBool b => b
  | JsNum n => negb (n =? 0)%Z
  | JsStr s => negb (String.eqb s "")
  | JsObj => true
  end.

(** [v !== false] *)
Definition strict_ne_false (v : JsVal) : bool :=
  match v with
  | JsBool false => false
  | _ => true
  end.

(** Property access on an object used as a bag of options: a missing
    property reads as [undefined]. *)
Definition prop (o : gmap string JsVal) (k : string) : JsVal :=
  default JsUndefined (o !! k).

(** [s.split(c)[0]]: the part of [s] before the first occurrence of [c]. *)
Fixpoint split_head (c : ascii) (s : string) : string :=
  match s with
  | EmptyString => EmptyString
  | String a s' => if Ascii.eqb a c then EmptyString else String a (split_head c s')
  end.

(** [s.replace(/c/g, d)] for single characters. *)
Fixpoint replace_all (c d : ascii) (s : string) : string :=
  match s with
  | EmptyString => EmptyString
  | String a s' => String (if Ascii.eqb a c then d else a) (replace_all c d s')
  end.

(** [xs.join(sep)] *)
Fixpoint join (sep : string) (xs : list string) : string :=
  match xs with
  | [] => ""
  | [x] => x
  | x :: rest => x ++ sep ++ join sep rest
  end.

Module path.

Definition sep : ascii := "/"%char.

(** Node's [path.join] on two segments, without the normalisation of
    [.], [..] and doubled separators. *)
Definition join (a b : string) : string := a ++ "/" ++ b.

(** Characters of [s] in reverse order. *)
Fixpoint rev_chars (s : string) (acc : list ascii) : list ascii :=
  match s with
  | EmptyString => acc
  | String a s' => rev_chars s' (a :: acc)
  end.

Fixpoint drop_seps (l : list ascii) : list ascii :=
  match l with
  | a :: l' => if Ascii.eqb a sep then drop_seps l' else l
  | [] => []
  end.

(** Reads a reversed path up to the first separator and gives the
    characters read, back in their original order. *)
Fixpoint last_segment (l : list ascii) (acc : string) : string :=
  match l with
  | a :: l' => if Ascii.eqb a sep then acc else last_segment l' (String a acc)
  | [] => acc
  end.

(** Node's posix [path.basename(p)]: trailing separators are dropped and
    the last segment is returned. *)
Definition basename (p : string) : string :=
  last_segment (drop_seps (rev_chars p [])) "".

End path.

(** ** Effective flags *)

Record Flags : Type := {
  (* install *)
  har : bool;
  ignorePlatform : bool;
  ignoreEngines : bool;
  ignoreScripts : bool;
  ignoreOptional : bool;
  force : bool;
  flat : bool;
  lockfile : bool;
  pureLockfile : bool;
  skipIntegrityCheck : bool;
  frozenLockfile : bool;
  linkDuplicates : bool;
  checkFiles : bool;
  (* add *)
  peer : bool;
  dev : bool;
  optional : bool;
  exact : bool;
  tilde : bool;
}.

Definition set_ignoreScripts (f : Flags) (b : bool) : Flags :=
  {| har := har f; ignorePlatform := ignorePlatform f; ignoreEngines := ignoreEngines f;
     ignoreScripts := b; ignoreOptional := ignoreOptional f; force := force f;
     flat := flat f; lockfile := lockfile f; pureLockfile := pureLockfile f;
     skipIntegrityCheck := skipIntegrityCheck f; frozenLockfile := frozenLockfile f;
     linkDuplicates := linkDuplicates f; checkFiles := checkFiles f;
     peer := peer f; dev := dev f; optional := optional f; exact := exact f; tilde := tilde f |}.

Definition set_ignorePlatform (f : Flags) (b : bool) : Flags :=
  {| har := har f; ignorePlatform := b; ignoreEngines := ignoreEngines f;
     ignoreScripts := ignoreScripts f; ignoreOptional := ignoreOptional f; force := force f;
     flat := flat f; lockfile := lockfile f; pureLockfile := pureLockfile f;
     skipIntegrityCheck := skipIntegrityCheck f; frozenLockfile := frozenLockfile f;
     linkDuplicates := linkDuplicates f; checkFiles := checkFiles f;
     peer := peer f; dev := dev f; optional := optional f; exact := exact f; tilde := tilde f |}.

Definition set_ignoreEngines (f : Flags) (b : bool) : Flags :=
  {| har := har f; ignorePlatform := ignorePlatform f; ignoreEngines := b;
     ignoreScripts := ignoreScripts f; ignoreOptional := ignoreOptional f; force := force f;
     flat := flat f; lockfile := lockfile f; pureLockfile := pureLockfile f;
     skipIntegrityCheck := skipIntegrityCheck f; frozenLockfile := frozenLockfile f;
     linkDuplicates := linkDuplicates f; checkFiles := checkFiles f;
     peer := peer f; dev := dev f; optional := optional f; exact := exact f; tilde := tilde f |}.

Definition set_ignoreOptional (f : Flags) (b : bool) : Flags :=
  {| har := har f; ignorePlatform := ignorePlatform f; ignoreEngines := ignoreEngines f;
     ignoreScripts := ignoreScripts f; ignoreOptional := b; force := force f;
     flat := flat f; lockfile := lockfile f; pureLockfile := pureLockfile f;
     skipIntegrityCheck := skipIntegrityCheck f; frozenLockfile := frozenLockfile f;
     linkDuplicates := linkDuplicates f; checkFiles := checkFiles f;
     peer := peer f; dev := dev f; optional := optional f; exact := exact f; tilde := tilde f |}.

Definition set_force (f : Flags) (b : bool) : Flags :=
  {| har := har f; ignorePlatform := ignorePlatform f; ignoreEngines := ignoreEngines f;
     ignoreScripts := ignoreScripts f; ignoreOptional := ignoreOptional f; force := b;
     flat := flat f; lockfile := lockfile f; pureLockfile := pureLockfile f;
     skipIntegrityCheck := skipIntegrityCheck f; frozenLockfile := frozenLockfile f;
     linkDuplicates := linkDuplicates f; checkFiles := checkFiles f;
     peer := peer f; dev := dev f; optional := optional f; exact := exact f; tilde := tilde f |}.

Definition set_flat (f : Flags) (b : bool) : Flags :=
  {| har := har f; ignorePlatform := ignorePlatform f; ignoreEngines := ignoreEngines f;
     ignoreScripts := ignoreScripts f; ignoreOptional := ignoreOptional f; force := force f;
     flat := b; lockfile := lockfile f; pureLockfile := pureLockfile f;
     skipIntegrityCheck := skipIntegrityCheck f; frozenLockfile := frozenLockfile f;
     linkDuplicates := linkDuplicates f; checkFiles := checkFiles f;
     peer := peer f; dev := dev f; optional := optional f; exact := exact f; tilde := tilde f |}.

(** [normalizeFlags(config, rawFlags)]; of the config only [getOption] is
    consulted. *)
Definition normalizeFlags (getOption : string -> JsVal) (rawFlags : gmap string JsVal) : Flags :=
  let flags :=
    {| har := truthy (prop rawFlags "har");
       ignorePlatform := truthy (prop rawFlags "ignorePlatform");
       ignoreEngines := truthy (prop rawFlags "ignoreEngines");
       ignoreScripts := truthy (prop rawFlags "ignoreScripts");
       ignoreOptional := truthy (prop rawFlags "ignoreOptional");
       force := truthy (prop rawFlags "force");
       flat := truthy (prop rawFlags "flat");
       lockfile := strict_ne_false (prop rawFlags "lockfile");
       pureLockfile := truthy (prop rawFlags "pureLockfile");
       skipIntegrityCheck := truthy (prop rawFlags "skipIntegrityCheck");
       frozenLockfile := truthy (prop rawFlags "frozenLockfile");
       linkDuplicates := truthy (prop rawFlags "linkDuplicates");
       checkFiles := truthy (prop rawFlags "checkFiles");
       peer := truthy (prop rawFlags "peer");
       dev := truthy (prop rawFlags "dev");
       optional := truthy (prop rawFlags "optional");
       exact := truthy (prop rawFlags "exact");
       tilde := truthy (prop rawFlags "tilde") |} in
  let flags := if truthy (getOption "ignore-scripts") then set_ignoreScripts flags true else flags in
  let flags := if truthy (getOption "ignore-platform") then set_ignorePlatform flags true else flags in
  let flags := if truthy (getOption "ignore-engines") then set_ignoreEngines flags true else flags in
  let flags := if truthy (getOption "ignore-optional") then set_ignoreOptional flags true else flags in
  let flags := if truthy (getOption "force") then set_force flags true else flags in
  flags.

(** ** Data model *)

(** The three dependency categories of a root manifest, the [depType]
    strings handed to [pushDeps]. *)
Inductive DepType : Type := dependencies | devDependencies | optionalDependencies.

(** A parsed root manifest, as far as the orchestrator reads it.  A
    dependency map lists [name, range] in the order [for .. in] visits
    them; [None] is an absent property. *)
Record RootManifest : Type := {
  m_dependencies : option (list (string * string));
  m_devDependencies : option (list (string * string));
  m_optionalDependencies : option (list (string * string));
  m_resolutions : option (list (string * string));
  m_flat : JsVal;
}.

(** [{}] *)
Definition empty_manifest : RootManifest :=
  {| m_dependencies := None; m_devDependencies := None; m_optionalDependencies := None;
     m_resolutions := None; m_flat := JsUndefined |}.

(** [json[depType]] *)
Definition depMapOf (json : RootManifest) (depType : DepType) : option (list (string * string)) :=
  match depType with
  | dependencies => m_dependencies json
  | devDependencies => m_devDependencies json
  | optionalDependencies => m_optionalDependencies json
  end.

Definition set_m_resolutions (json : RootManifest) (r : option (list (string * string))) : RootManifest :=
  {| m_dependencies := m_dependencies json; m_devDependencies := m_devDependencies json;
     m_optionalDependencies := m_optionalDependencies json; m_resolutions := r;
     m_flat := m_flat json |}.

(** [{pattern, registry, hint, optional}] *)
Record DependencyRequest : Type := {
  req_pattern : string;
  req_registry : string;
  req_hint : option string;
  req_optional : bool;
}.

Record InstallCwdRequest : Type := {
  requests : list DependencyRequest;
  patterns : list string;
  manifest : RootManifest;
  usedPatterns : list string;
  ignorePatterns : list string;
}.

(** Objects enumerated in insertion order. *)
Section Obj.
Context {V : Type}.

(** [o[k]] *)
Fixpoint obj_get (o : list (string * V)) (k : string) : option V :=
  match o with
  | [] => None
  | (k', v) :: o' => if String.eqb k' k then Some v else obj_get o' k
  end.

(** [o[k] = v]: an existing key keeps its place, a new one goes last. *)
Fixpoint obj_set (o : list (string * V)) (k : string) (v : V) : list (string * V) :=
  match o with
  | [] => [(k, v)]
  | (k', v') :: o' => if String.eqb k' k then (k', v) :: o' else (k', v') :: obj_set o' k v
  end.

(** [Object.assign(target, source)] *)
Definition obj_assign (target source : list (string * V)) : list (string * V) :=
  fold_left (fun t kv => obj_set t (fst kv) (snd kv)) source target.
End Obj.

(** The back-reference a resolved manifest carries; it is shared between
    the manifests that resolved to one package, hence kept in a store and
    named by its index there. *)
Record PackageReference : Type := {
  ref_requests : list string;
  ref_ignore : bool;
  ref_patterns : list string;
  ref_registry : string;
}.

Definition set_ref_ignore (r : PackageReference) (b : bool) : PackageReference :=
  {| ref_requests := ref_requests r; ref_ignore := b;
     ref_patterns := ref_patterns r; ref_registry := ref_registry r |}.

(** A resolved package manifest; [pkg_reference] is [_reference]. *)
Record Manifest : Type := {
  pkg_name : string;
  pkg_version : string;
  pkg_reference : option nat;
}.

(** The fields of the resolver the orchestrator reads directly, and the
    store of references.  The arrays held by [patternsByPackage] are taken
    to be non-empty, a first pattern and the rest: [flatten] reads their
    element [0]. *)
Record PackageResolver : Type := {
  r_patterns : list (string * Manifest);
  patternsByPackage : list (string * (string * list string));
  usedRegistries : list string;
  r_references : list PackageReference;
}.

Definition set_r_references (r : PackageResolver) (refs : list PackageReference) : PackageResolver :=
  {| r_patterns := r_patterns r; patternsByPackage := patternsByPackage r;
     usedRegistries := usedRegistries r; r_references := refs |}.

(** [manifest._reference] *)
Definition reference_of (r : PackageResolver) (m : Manifest) : option PackageReference :=
  i ← pkg_reference m; r_references r !! i.

(** An entry of a lockfile. *)
Record LockManifest : Type := {
  resolved : option string;
  version : string;
}.

(** The lockfile wrapper: its cache and what its two queries answer. *)
Record Lockfile : Type := {
  cache : option (list (string * LockManifest));
  getLocked : string -> bool -> option LockManifest;
  getLockfile : list (string * Manifest) -> list (string * LockManifest);
}.

Record IntegrityCheck : Type := {
  integrityMatches : bool;
  integrityFileMissing : bool;
  missingPatterns : list string;
}.

(** [reporter.lang(key, ...args)] *)
Record Message : Type := lang { msg_key : string; msg_args : list string }.

Record ReporterSelectOption : Type := {
  opt_name : Message;
  opt_value : string;
}.

(** An entry of [config.getRootManifests()]. *)
Record RootManifestFile : Type := {
  rm_loc : string;
  rm_object : RootManifest;
  rm_exists : bool;
}.

Definition set_rm_object (f : RootManifestFile) (o : RootManifest) : RootManifestFile :=
  {| rm_loc := rm_loc f; rm_object := o; rm_exists := rm_exists f |}.

Record WalkFile : Type := {
  relative : string;
  basename : string;
  absolute : string;
}.

(** What the orchestrator does to the outside, in the order it does it. *)
Inductive Event : Type :=
(* reporter *)
| ReporterStep (curr total : nat) (msg : Message)
| ReporterSuccess (msg : Message)
| ReporterWarn (msg : Message)
| ReporterSelect (question answer : Message) (options : list ReporterSelectOption)
(* config *)
| ReadJson (loc : string)
| ReadManifest (loc : string)
| SaveRootManifests (manifests : list (string * RootManifestFile))
| ExecuteLifecycleScript (name : string)
| SaveHar (filename : string)
| ClearCache
(* engines *)
| ResolverInit (reqs : list DependencyRequest) (isFlat : bool)
| CollapseAllVersionsOfPackage (name ver : string)
| UpdateManifest (ref : nat) (newPkg : Manifest)
| FetcherInit
| CompatibilityInit
| LinkerInit (pats : list string) (linkDups : bool)
| ScriptsInit (pats : list string)
| IntegrityCheckRun (pats : list string)
| IntegritySave (pats : list string) (lock : list (string * LockManifest))
| RemoveIntegrityFile
| Clean
| LockfileFromDirectory (dir : string)
| CheckUpdate
| MaybeOutputUpdate
(* util/fs *)
| Mkdirp (dir : string)
| Unlink (loc : string)
| WriteFilePreservingEol (loc data : string).

Inductive Error : Type :=
| MessageError (msg : Message)
| InvariantViolation (msg : string)
| TypeError (what : string)
| EngineError (origin : string).

Inductive Result (A : Type) : Type :=
| Ok (a : A)
| Throw (e : Error).
Arguments Ok {A} a.
Arguments Throw {A} e.

(** The mutable part of an [Install] instance and of its surroundings:
    the fields the methods assign to, the resolver, the regular files of
    the disk (path and content, in directory order) and the trace. *)
Record World : Type := {
  flags : Flags;
  rootManifestRegistries : list string;
  rootPatternsToOrigin : gmap string DepType;
  resolutions : list (string * string);
  resolver : PackageResolver;
  files : list (string * string);
  trace : list Event;
}.

Definition set_flags (w : World) (f : Flags) : World :=
  {| flags := f; rootManifestRegistries := rootManifestRegistries w;
     rootPatternsToOrigin := rootPatternsToOrigin w; resolutions := resolutions w;
     resolver := resolver w; files := files w; trace := trace w |}.

Definition set_rootManifestRegistries (w : World) (l : list string) : World :=
  {| flags := flags w; rootManifestRegistries := l;
     rootPatternsToOrigin := rootPatternsToOrigin w; resolutions := resolutions w;
     resolver := resolver w; files := files w; trace := trace w |}.

Definition set_rootPatternsToOrigin (w : World) (m : gmap string DepType) : World :=
  {| flags := flags w; rootManifestRegistries := rootManifestRegistries w;
     rootPatternsToOrigin := m; resolutions := resolutions w;
     resolver := resolver w; files := files w; trace := trace w |}.

Definition set_resolutions (w : World) (r : list (string * string)) : World :=
  {| flags := flags w; rootManifestRegistries := rootManifestRegistries w;
     rootPatternsToOrigin := rootPatternsToOrigin w; resolutions := r;
     resolver := resolver w; files := files w; trace := trace w |}.

Definition set_resolver (w : World) (r : PackageResolver) : World :=
  {| flags := flags w; rootManifestRegistries := rootManifestRegistries w;
     rootPatternsToOrigin := rootPatternsToOrigin w; resolutions := resolutions w;
     resolver := r; files := files w; trace := trace w |}.

Definition set_files (w : World) (fs : list (string * string)) : World :=
  {| flags := flags w; rootManifestRegistries := rootManifestRegistries w;
     rootPatternsToOrigin := rootPatternsToOrigin w; resolutions := resolutions w;
     resolver := resolver w; files := fs; trace := trace w |}.

Definition set_trace (w : World) (t : list Event) : World :=
  {| flags := flags w; rootManifestRegistries := rootManifestRegistries w;
     rootPatternsToOrigin := rootPatternsToOrigin w; resolutions := resolutions w;
     resolver := resolver w; files := files w; trace := t |}.

(** ** The surroundings of the orchestrator *)

(** [config]: its fields and what its readers answer. *)
Record Config : Type := {
  cwd : string;
  production : bool;
  modulesFolder : option string;
  cfg_pruneOfflineMirror : bool;
  getOption : string -> JsVal;
  getOfflineMirrorPath : option string;
  (** [config.registries[name].folder] *)
  registryFolder : string -> string;
  readJson : string -> RootManifest;
  readManifest : string -> Manifest;
  getRootManifests : list (string * RootManifestFile);
  generateHardModulePath : PackageReference -> string;
}.

(** The imported modules: constants, tables and the answers of the
    engines.  An engine that changes the resolver is a function on it. *)
Record Engines : Type := {
  (** the [registries] table: registry name and manifest filename, in the
      order of [Object.keys] *)
  registries : list (string * string);
  LOCKFILE_FILENAME : string;
  CLEAN_FILENAME : string;
  (** [PackageRequest.getExoticResolver(pattern)], as a truth value *)
  getExoticResolver : string -> bool;
  (** [PackageRequest.normalizePattern(pattern).name] *)
  normalizePattern_name : string -> string;
  (** [normalizeManifest(json, cwd, config, true)] rewrites [json] in place *)
  normalizeManifest : RootManifest -> RootManifest;
  lockStringify : list (string * LockManifest) -> string;
  integrityChecker_check : list string -> list (string * LockManifest) -> Flags -> IntegrityCheck;
  resolver_init : list DependencyRequest -> bool -> PackageResolver -> PackageResolver;
  getAllDependencyNamesByLevelOrder : PackageResolver -> list string -> list string;
  getAllInfoForPackageName : PackageResolver -> string -> list Manifest;
  collapseAllVersionsOfPackage : PackageResolver -> string -> string -> string * PackageResolver;
  getResolvedPattern : PackageResolver -> string -> option Manifest;
  (** [None]: the call throws *)
  getStrictResolvedPattern : PackageResolver -> string -> option Manifest;
  getManifests : PackageResolver -> list Manifest;
  updateManifest : PackageResolver -> nat -> Manifest -> PackageResolver;
  fetcher_init : PackageResolver -> PackageResolver;
  reporter_select : Message -> Message -> list ReporterSelectOption -> string;
  (** [new Date().toISOString()] *)
  toISOString_now : string;
  (** [new Lockfile()] and [Lockfile.fromDirectory(dir, reporter)] *)
  Lockfile_new : Lockfile;
  Lockfile_fromDirectory : string -> Lockfile;
}.

(** ** Computations: state, trace and exceptions *)

Definition M (A : Type) : Type := World -> Result A * World.

Definition ret {A : Type} (a : A) : M A := fun w => (Ok a, w).

Definition throw {A : Type} (e : Error) : M A := fun w => (Throw e, w).

Definition bind {A B : Type} (c : M A) (k : A -> M B) : M B :=
  fun w =>
    match c w with
    | (Ok a, w') => k a w'
    | (Throw e, w') => (Throw e, w')
    end.

Declare Scope install_scope.
Delimit Scope install_scope with install.
Notation "x <- c ;; k" := (bind c (fun x => k))
  (at level 100, c at next level, right associativity) : install_scope.
Notation "c ;; k" := (bind c (fun _ => k))
  (at level 100, right associativity) : install_scope.
Local Open Scope install_scope.

Definition get : M World := fun w => (Ok w, w).

Definition modify (f : World -> World) : M unit := fun w => (Ok tt, f w).

Definition emit (e : Event) : M unit :=
  modify (fun w => set_trace w (trace w ++ [e])).

(** [if (c) { body }] *)
Definition when (c : bool) (body : M unit) : M unit :=
  if c then body else ret tt.

(** [invariant(x, msg)] for an [x] that may be [undefined] *)
Definition invariant {A : Type} (x : option A) (msg : string) : M A :=
  match x with
  | Some a => ret a
  | None => throw (InvariantViolation msg)
  end.

(** [for (const x of xs) { body(x) }] *)
Fixpoint for_of {A : Type} (xs : list A) (body : A -> M unit) : M unit :=
  match xs with
  | [] => ret tt
  | x :: rest => body x ;; for_of rest body
  end.

(** Modelled from the spec: [util/fs.js] is not among the sources.  The
    disk is the list of its regular files; [walk] lists the files below a
    directory, [unlink] removes a file, [writeFilePreservingEol] creates
    or replaces one, [mkdirp] adds no regular file. *)
Module fs.

Definition exists_ (loc : string) : M bool :=
  fun w => (Ok (existsb (fun f => String.eqb (fst f) loc) (files w)), w).

Definition below (dir loc : string) : bool := String.prefix (dir ++ "/") loc.

Definition walk_file (dir : string) (f : string * string) : WalkFile :=
  let loc := fst f in
  {| relative := substring (S (String.length dir)) (String.length loc) loc;
     basename := path.basename loc;
     absolute := loc |}.

Definition walk (dir : string) : M (list WalkFile) :=
  fun w => (Ok (map (walk_file dir) (List.filter (fun f => below dir (fst f)) (files w))), w).

Definition unlink (loc : string) : M unit :=
  emit (Unlink loc) ;;
  modify (fun w => set_files w (List.filter (fun f => negb (String.eqb (fst f) loc)) (files w))).

Definition writeFilePreservingEol (loc data : string) : M unit :=
  emit (WriteFilePreservingEol loc data) ;;
  modify (fun w => set_files w (obj_set (files w) loc data)).

Definition mkdirp (dir : string) : M unit := emit (Mkdirp dir).

End fs.

Module reporter.
Definition step (curr total : nat) (msg : Message) : M unit := emit (ReporterStep curr total msg).
Definition success (msg : Message) : M unit := emit (ReporterSuccess msg).
Definition warn (msg : Message) : M unit := emit (ReporterWarn msg).
End reporter.

(** The local arrays of [fetchRequestFromCwd]. *)
Record CwdArrays : Type := {
  a_patterns : list string;
  a_deps : list DependencyRequest;
  a_ignorePatterns : list string;
  a_usedPatterns : list string;
}.

Section Install.

Variable E : Engines.
Variable config : Config.
(** [this.lockfile] *)
Variable lockfile_ : Lockfile.

(** *** fetchRequestFromCwd *)

(** The first loop: the names of the patterns given as install arguments. *)
Fixpoint excludeNamesOf (excludePatterns : list string) (excludeNames : list string) : list string :=
  match excludePatterns with
  | [] => excludeNames
  | pattern :: rest =>
      if getExoticResolver E pattern then excludeNamesOf rest excludeNames
      else excludeNamesOf rest (excludeNames ++ [normalizePattern_name E pattern])
  end.

(** Lines 248-253: the pattern of one entry of a dependency map. *)
Definition patternOf (name range : string) : string :=
  let pattern := name in
  if negb (bool_decide (is_Some (getLocked lockfile_ pattern true)))
  then pattern ++ "@" ++ range
  else pattern.

(** The body of the [for (const name in depMap)] loop of [pushDeps],
    acting on the local arrays and on [this.rootPatternsToOrigin]. *)
Fixpoint pushDepsLoop (registry : string) (excludeNames : list string)
    (depType : DepType) (hint : option string) (opt : bool) (isUsed : bool)
    (depMap : list (string * string))
    (st : CwdArrays * gmap string DepType) : CwdArrays * gmap string DepType :=
  match depMap with
  | [] => st
  | (name, range) :: rest =>
      if existsb (String.eqb name) excludeNames
      then pushDepsLoop registry excludeNames depType hint opt isUsed rest st
      else
        let pattern := patternOf name range in
        let a := fst st in
        let a' :=
          {| a_patterns := a_patterns a ++ [pattern];
             a_deps := a_deps a ++ [{| req_pattern := pattern; req_registry := registry;
                                       req_hint := hint; req_optional := opt |}];
             a_ignorePatterns := if isUsed then a_ignorePatterns a
                                 else a_ignorePatterns a ++ [pattern];
             a_usedPatterns := if isUsed then a_usedPatterns a ++ [pattern]
                               else a_usedPatterns a |} in
        pushDepsLoop registry excludeNames depType hint opt isUsed rest
          (a', <[pattern := depType]> (snd st))
  end.

Definition pushDeps (json : RootManifest) (registry : string) (excludeNames : list string)
    (ignoreUnusedPatterns : bool)
    (depType : DepType) (hint : option string) (opt : bool) (isUsed : bool)
    (st : CwdArrays * gmap string DepType) : CwdArrays * gmap string DepType :=
  if ignoreUnusedPatterns && negb isUsed then st
  else pushDepsLoop registry excludeNames depType hint opt isUsed
         (default [] (depMapOf json depType)) st.

(** The body of the loop over the registries, for a registry whose
    manifest exists at [loc]. *)
Definition readRootManifest (registry loc : string) (excludeNames : list string)
    (ignoreUnusedPatterns : bool) (a : CwdArrays) : M (CwdArrays * RootManifest) :=
  modify (fun w => set_rootManifestRegistries w (rootManifestRegistries w ++ [registry])) ;;
  emit (ReadJson loc) ;;
  let json := normalizeManifest E (readJson config loc) in
  modify (fun w => set_resolutions w
            (obj_assign (resolutions w) (default [] (m_resolutions json)))) ;;
  w <- get ;;
  let st := (a, rootPatternsToOrigin w) in
  let st := pushDeps json registry excludeNames ignoreUnusedPatterns
              dependencies None false true st in
  let st := pushDeps json registry excludeNames ignoreUnusedPatterns
              devDependencies (Some "dev") false (negb (production config)) st in
  let st := pushDeps json registry excludeNames ignoreUnusedPatterns
              optionalDependencies (Some "optional") true
              (negb (ignoreOptional (flags w))) st in
  modify (fun w => set_rootPatternsToOrigin w (snd st)) ;;
  ret (fst st, json).

(** The loop over [Object.keys(registries)]: a registry without a
    manifest in [cwd] is skipped, the first one with a manifest is
    processed and ends the loop.  [a] and [mf] are the local arrays and
    the local [manifest] object. *)
Fixpoint registryLoop (regs : list (string * string)) (excludeNames : list string)
    (ignoreUnusedPatterns : bool) (a : CwdArrays) (mf : RootManifest)
    : M (CwdArrays * RootManifest) :=
  match regs with
  | [] => ret (a, mf)
  | (registry, filename) :: rest =>
      let loc := path.join (cwd config) filename in
      found <- fs.exists_ loc ;;
      if negb found then registryLoop rest excludeNames ignoreUnusedPatterns a mf
      else readRootManifest registry loc excludeNames ignoreUnusedPatterns a
  end.

Definition fetchRequestFromCwd (excludePatterns : list string) (ignoreUnusedPatterns : bool)
    : M InstallCwdRequest :=
  let a := {| a_patterns := []; a_deps := []; a_ignorePatterns := []; a_usedPatterns := [] |} in
  let excludeNames := excludeNamesOf excludePatterns [] in
  found <- registryLoop (registries E) excludeNames ignoreUnusedPatterns a empty_manifest ;;
  let '(a, mf) := found in
  (* inherit root flat flag *)
  when (truthy (m_flat mf)) (modify (fun w => set_flags w (set_flat (flags w) true))) ;;
  ret {| requests := a_deps a; patterns := a_patterns a; manifest := mf;
         usedPatterns := a_usedPatterns a; ignorePatterns := a_ignorePatterns a |}.

Definition prepareRequests (reqs : list DependencyRequest) : list DependencyRequest := reqs.

Definition preparePatterns (pats : list string) : list string := pats.

(** *** pruneOfflineMirror *)

(** [if (x)] on a string that may be [undefined] *)
Definition nonempty (x : option string) : option string :=
  match x with
  | Some s => if String.eqb s "" then None else Some s
  | None => None
  end.

(** The loop filling [requiredTarballs]. *)
Fixpoint requiredTarballsOf (lock : list (string * LockManifest)) (requiredTarballs : gset string)
    : gset string :=
  match lock with
  | [] => requiredTarballs
  | (dependency, entry) :: rest =>
      match nonempty (resolved entry) with
      | Some res =>
          requiredTarballsOf rest ({[ path.basename (split_head "#" res) ]} ∪ requiredTarballs)
      | None => requiredTarballsOf rest requiredTarballs
      end
  end.

Definition pruneOfflineMirror (lock : list (string * LockManifest)) : M unit :=
  match nonempty (getOfflineMirrorPath config) with
  | None => ret tt
  | Some mirror =>
      let requiredTarballs := requiredTarballsOf lock ∅ in
      mirrorTarballs <- fs.walk mirror ;;
      for_of mirrorTarballs (fun tarball =>
        when (negb (bool_decide (basename tarball ∈ requiredTarballs)))
             (fs.unlink (absolute tarball)))
  end.

(** *** saveLockfileAndIntegrity *)

Definition _logSuccessSaveLockfile : M unit :=
  reporter.success (lang "savedLockfile" []).

Definition lockFileHasAllPatterns (pats : list string) : bool :=
  (length (List.filter (fun p => negb (bool_decide (is_Some (getLocked lockfile_ p false)))) pats) =? 0)%nat.

Definition resolverPatternsAreSameAsInLockfile (lockfileBasedOnResolver : list (string * LockManifest))
    : bool :=
  (length
     (List.filter
        (fun pattern =>
           match getLocked lockfile_ pattern false with
           | None => true
           | Some m =>
               negb (bool_decide
                       (resolved m = (e ← obj_get lockfileBasedOnResolver pattern; resolved e)))
           end)
        (map fst lockfileBasedOnResolver)) =? 0)%nat.

Definition saveLockfileAndIntegrity (pats : list string) : M unit :=
  w <- get ;;
  (* --no-lockfile or --pure-lockfile flag *)
  if negb (lockfile (flags w)) || pureLockfile (flags w) then ret tt
  else
    let lockfileBasedOnResolver := getLockfile lockfile_ (r_patterns (resolver w)) in
    when (cfg_pruneOfflineMirror config) (pruneOfflineMirror lockfileBasedOnResolver) ;;
    (* write integrity hash *)
    emit (IntegritySave pats lockfileBasedOnResolver) ;;
    if lockFileHasAllPatterns pats
       && resolverPatternsAreSameAsInLockfile lockfileBasedOnResolver
       && negb (length pats =? 0)%nat
       && negb (force (flags w))
    then ret tt
    else
      let loc := path.join (cwd config) (LOCKFILE_FILENAME E) in
      let lockSource := lockStringify E lockfileBasedOnResolver in
      fs.writeFilePreservingEol loc lockSource ;;
      _logSuccessSaveLockfile.

(** *** bailout *)

Definition createEmptyManifestFolders : M unit :=
  match nonempty (modulesFolder config) with
  | Some _ => ret tt
  | None =>
      w <- get ;;
      for_of (rootManifestRegistries w) (fun registryName =>
        fs.mkdirp (path.join (cwd config) (registryFolder config registryName)))
  end.

Definition bailout (pats : list string) : M bool :=
  w <- get ;;
  if skipIntegrityCheck (flags w) || force (flags w) then ret false
  else
    match cache lockfile_ with
    | None => ret false
    | Some lockfileCache =>
        emit (IntegrityCheckRun pats) ;;
        let match_ := integrityChecker_check E pats lockfileCache (flags w) in
        if frozenLockfile (flags w) && (0 <? length (missingPatterns match_))%nat
        then throw (MessageError (lang "frozenLockfileError" []))
        else
          haveLockfile <- fs.exists_ (path.join (cwd config) (LOCKFILE_FILENAME E)) ;;
          if integrityMatches match_ && haveLockfile then
            reporter.success (lang "upToDate" []) ;;
            ret true
          else if (length pats =? 0)%nat && negb (integrityFileMissing match_) then
            reporter.success (lang "nothingToInstall" []) ;;
            createEmptyManifestFolders ;;
            saveLockfileAndIntegrity pats ;;
            ret true
          else ret false
    end.

(** *** markIgnored *)

Definition markIgnored (pats : list string) : M unit :=
  for_of pats (fun pattern =>
    w <- get ;;
    match getStrictResolvedPattern E (resolver w) pattern with
    | None => throw (EngineError "getStrictResolvedPattern")
    | Some mf =>
        ref <- invariant (reference_of (resolver w) mf) "expected package reference" ;;
        when (length (ref_requests ref) =? 1)%nat
          (* this module was only depended on once by the root *)
          (modify (fun w =>
             set_resolver w
               (set_r_references (resolver w)
                  (alter (fun r => set_ref_ignore r true)
                         (default 0%nat (pkg_reference mf))
                         (r_references (resolver w))))))
    end).

(** *** flatten *)

(** The [filter] over the manifests of one package name: those whose
    reference is not ignored; a manifest without reference breaks the
    invariant. *)
Fixpoint notIgnored (infos : list Manifest) : M (list Manifest) :=
  match infos with
  | [] => ret []
  | mf :: rest =>
      w <- get ;;
      ref <- invariant (reference_of (resolver w) mf) "expected package reference" ;;
      kept <- notIgnored rest ;;
      ret (if negb (ref_ignore ref) then mf :: kept else kept)
  end.

(** The [map] building the options of the prompt. *)
Fixpoint selectOptions (infos : list Manifest) : M (list ReporterSelectOption) :=
  match infos with
  | [] => ret []
  | info :: rest =>
      w <- get ;;
      ref <- invariant (reference_of (resolver w) info) "expected reference" ;;
      opts <- selectOptions rest ;;
      ret ({| opt_name := lang "manualVersionResolutionOption"
                            [join ", " (ref_patterns ref); pkg_version info];
              opt_value := pkg_version info |} :: opts)
  end.

(** One round of the loop over the names in level order. *)
Definition flattenName (name : string) (flattenedPatterns : list string) : M (list string) :=
  w <- get ;;
  infos <- notIgnored (getAllInfoForPackageName E (resolver w) name) ;;
  match infos with
  | [] => ret flattenedPatterns
  | [_] =>
      (* single version of this package *)
      match obj_get (patternsByPackage (resolver w)) name with
      | Some (first, _) => ret (flattenedPatterns ++ [first])
      | None => throw (TypeError "patternsByPackage[name] is undefined")
      end
  | _ =>
      options <- selectOptions infos ;;
      let versions := map pkg_version infos in
      let resolutionVersion := nonempty (obj_get (resolutions w) name) in
      let ask : M string :=
        let question := lang "manualVersionResolution" [name] in
        let answer := lang "answer" [] in
        emit (ReporterSelect question answer options) ;;
        let ver := reporter_select E question answer options in
        modify (fun w => set_resolutions w (obj_set (resolutions w) name ver)) ;;
        ret ver in
      ver <- match resolutionVersion with
             | Some v => if existsb (String.eqb v) versions then ret v else ask
             | None => ask
             end ;;
      w <- get ;;
      let collapsed := collapseAllVersionsOfPackage E (resolver w) name ver in
      emit (CollapseAllVersionsOfPackage name ver) ;;
      modify (fun w => set_resolver w (snd collapsed)) ;;
      ret (flattenedPatterns ++ [fst collapsed])
  end.

Fixpoint flattenNames (names : list string) (flattenedPatterns : list string) : M (list string) :=
  match names with
  | [] => ret flattenedPatterns
  | name :: rest =>
      flattenedPatterns <- flattenName name flattenedPatterns ;;
      flattenNames rest flattenedPatterns
  end.

(** The inner loop looking for a resolved pattern of a package. *)
Fixpoint firstResolved (r : PackageResolver) (pats : list string) : option Manifest :=
  match pats with
  | [] => None
  | pattern :: rest =>
      match getResolvedPattern E r pattern with
      | Some mf => Some mf
      | None => firstResolved r rest
      end
  end.

(** The loop writing the resolutions into the root manifest objects. *)
Fixpoint recordResolutions (res : list (string * string))
    (manifests : list (string * RootManifestFile)) : M (list (string * RootManifestFile)) :=
  match res with
  | [] => ret manifests
  | (name, ver) :: rest =>
      w <- get ;;
      match obj_get (patternsByPackage (resolver w)) name with
      | None => recordResolutions rest manifests
      | Some (first, others) =>
          mf <- invariant (firstResolved (resolver w) (first :: others)) "expected manifest" ;;
          ref <- invariant (reference_of (resolver w) mf) "expected reference" ;;
          match obj_get manifests (ref_registry ref) with
          | None => throw (TypeError "manifests[ref.registry] is undefined")
          | Some file =>
              let object := rm_object file in
              let object :=
                set_m_resolutions object
                  (Some (obj_set (default [] (m_resolutions object)) name ver)) in
              recordResolutions rest
                (obj_set manifests (ref_registry ref) (set_rm_object file object))
          end
      end
  end.

Definition flatten (pats : list string) : M (list string) :=
  w <- get ;;
  if negb (flat (flags w)) then ret pats
  else
    flattenedPatterns <-
      flattenNames (getAllDependencyNamesByLevelOrder E (resolver w) pats) [] ;;
    (* save resolutions to their appropriate root manifest *)
    w <- get ;;
    when (negb (length (resolutions w) =? 0)%nat)
      (manifests <- recordResolutions (resolutions w) (getRootManifests config) ;;
       emit (SaveRootManifests manifests)) ;;
    ret flattenedPatterns.

(** *** init *)

(** The self-update nag consults the terminal, the clock and the network,
    and is started without being awaited; the trace only records that it
    was started, and where its message would appear. *)
Definition checkUpdate : M unit := emit CheckUpdate.

Definition maybeOutputUpdate : M unit := emit MaybeOutputUpdate.

Definition shouldClean : M bool := fs.exists_ (path.join (cwd config) (CLEAN_FILENAME E)).

(** The closures pushed on [steps], by the message they report. *)
Inductive Step : Type :=
| resolvingPackages
| fetchingPackages
| linkingDependencies
| buildingPackages
| savingHar
| cleaningModules.

(** The two variables the steps share. *)
Record StepVars : Type := {
  topLevelPatterns : list string;
  flattenedTopLevelPatterns : list string;
}.

(** A step gives the new value of the shared variables and whether it
    asks to bail out. *)
Definition runStep (request : InstallCwdRequest) (step : Step) (curr total : nat)
    (vars : StepVars) : M (StepVars * bool) :=
  match step with
  | resolvingPackages =>
      reporter.step curr total (lang "resolvingPackages" []) ;;
      w <- get ;;
      let reqs := prepareRequests (requests request) in
      emit (ResolverInit reqs (flat (flags w))) ;;
      modify (fun w => set_resolver w (resolver_init E reqs (flat (flags w)) (resolver w))) ;;
      let top := preparePatterns (patterns request) in
      flattened <- flatten top ;;
      b <- bailout (usedPatterns request) ;;
      ret ({| topLevelPatterns := top; flattenedTopLevelPatterns := flattened |}, b)
  | fetchingPackages =>
      markIgnored (ignorePatterns request) ;;
      reporter.step curr total (lang "fetchingPackages" []) ;;
      emit FetcherInit ;;
      modify (fun w => set_resolver w (fetcher_init E (resolver w))) ;;
      emit CompatibilityInit ;;
      ret (vars, false)
  | linkingDependencies =>
      (* remove integrity hash to make this operation atomic *)
      emit RemoveIntegrityFile ;;
      reporter.step curr total (lang "linkingDependencies" []) ;;
      w <- get ;;
      emit (LinkerInit (flattenedTopLevelPatterns vars) (linkDuplicates (flags w))) ;;
      ret (vars, false)
  | buildingPackages =>
      w <- get ;;
      reporter.step curr total
        (if force (flags w) then lang "rebuildingPackages" []
         else lang "buildingFreshPackages" []) ;;
      (if ignoreScripts (flags w) then reporter.warn (lang "ignoredScripts" [])
       else emit (ScriptsInit (flattenedTopLevelPatterns vars))) ;;
      ret (vars, false)
  | savingHar =>
      let formattedDate := replace_all ":" "-" (toISOString_now E) in
      let filename := ("yarn-install_" ++ formattedDate ++ ".har")%string in
      reporter.step curr total (lang "savingHar" [filename]) ;;
      emit (SaveHar filename) ;;
      ret (vars, false)
  | cleaningModules =>
      reporter.step curr total (lang "cleaningModules" []) ;;
      emit Clean ;;
      ret (vars, false)
  end.

(** The loop over [steps]; [currentStep] counts the steps already run. *)
Fixpoint runSteps (request : InstallCwdRequest) (steps : list Step) (currentStep total : nat)
    (vars : StepVars) : M (StepVars * bool) :=
  match steps with
  | [] => ret (vars, false)
  | step :: rest =>
      stepResult <- runStep request step (S currentStep) total vars ;;
      if snd stepResult then ret (fst stepResult, true)
      else runSteps request rest (S currentStep) total (fst stepResult)
  end.

Definition init : M (list string) :=
  checkUpdate ;;
  (* warn if we have a shrinkwrap *)
  shrinkwrap <- fs.exists_ (path.join (cwd config) "npm-shrinkwrap.json") ;;
  when shrinkwrap (reporter.warn (lang "shrinkwrapWarning" [])) ;;
  request <- fetchRequestFromCwd [] false ;;
  w <- get ;;
  doClean <- shouldClean ;;
  let steps :=
    [resolvingPackages; fetchingPackages; linkingDependencies; buildingPackages]
    ++ (if har (flags w) then [savingHar] else [])
    ++ (if doClean then [cleaningModules] else []) in
  let vars := {| topLevelPatterns := []; flattenedTopLevelPatterns := [] |} in
  out <- runSteps request steps 0 (length steps) vars ;;
  if snd out then ret (flattenedTopLevelPatterns (fst out))
  else
    (* fin! *)
    saveLockfileAndIntegrity (topLevelPatterns (fst out)) ;;
    maybeOutputUpdate ;;
    emit ClearCache ;;
    ret (flattenedTopLevelPatterns (fst out)).

(** *** hydrate *)

(** The loop expanding the minimal manifests. *)
Definition expandManifest (mf : Manifest) : M unit :=
  w <- get ;;
  ref <- invariant (reference_of (resolver w) mf) "expected reference" ;;
  let loc := generateHardModulePath config ref in
  emit (ReadManifest loc) ;;
  let newPkg := readManifest config loc in
  let i := default 0%nat (pkg_reference mf) in
  emit (UpdateManifest i newPkg) ;;
  modify (fun w => set_resolver w (updateManifest E (resolver w) i newPkg)).

Definition hydrate (fetch : bool) (ignoreUnusedPatterns : bool) : M InstallCwdRequest :=
  request <- fetchRequestFromCwd [] ignoreUnusedPatterns ;;
  w <- get ;;
  emit (ResolverInit (requests request) (flat (flags w))) ;;
  modify (fun w => set_resolver w (resolver_init E (requests request) (flat (flags w)) (resolver w))) ;;
  flatten (patterns request) ;;
  markIgnored (ignorePatterns request) ;;
  when fetch
    ((* fetch packages, should hit cache most of the time *)
     emit FetcherInit ;;
     modify (fun w => set_resolver w (fetcher_init E (resolver w))) ;;
     emit CompatibilityInit ;;
     (* expand minimal manifests *)
     w <- get ;;
     for_of (getManifests E (resolver w)) expandManifest) ;;
  ret request.

End Install.

(** ** The command *)

(** [new Install(flags, config, reporter, lockfile)]: the fields of the
    fresh instance; disk and trace are those of the surroundings. *)
Definition Install_new (config : Config) (rawFlags : gmap string JsVal) : M unit :=
  modify (fun w =>
    {| flags := normalizeFlags (getOption config) rawFlags;
       rootManifestRegistries := [];
       rootPatternsToOrigin := ∅;
       resolutions := [];
       resolver := {| r_patterns := []; patternsByPackage := []; usedRegistries := [];
                      r_references := [] |};
       files := files w;
       trace := trace w |}).

Definition executeLifecycleScript (name : string) : M unit := emit (ExecuteLifecycleScript name).

Definition wrapLifecycle (config : Config) (factory : M unit) : M unit :=
  executeLifecycleScript "preinstall" ;;
  factory ;;
  (* npm behaviour, seems kinda funky but yay compatibility *)
  executeLifecycleScript "install" ;;
  executeLifecycleScript "postinstall" ;;
  when (negb (production config))
    (executeLifecycleScript "prepublish" ;;
     executeLifecycleScript "prepare").

Definition run (E : Engines) (config : Config) (rawFlags : gmap string JsVal) (args : list string)
    : M unit :=
  lockfile_ <-
    (if negb (strict_ne_false (prop rawFlags "lockfile")) then ret (Lockfile_new E)
     else emit (LockfileFromDirectory (cwd config)) ;;
          ret (Lockfile_fromDirectory E (cwd config))) ;;
  if negb (length args =? 0)%nat then
    let exampleArgs := args in
    let exampleArgs := if truthy (prop rawFlags "saveDev") then exampleArgs ++ ["--dev"] else exampleArgs in
    let exampleArgs := if truthy (prop rawFlags "savePeer") then exampleArgs ++ ["--peer"] else exampleArgs in
    let exampleArgs := if truthy (prop rawFlags "saveOptional") then exampleArgs ++ ["--optional"] else exampleArgs in
    let exampleArgs := if truthy (prop rawFlags "saveExact") then exampleArgs ++ ["--exact"] else exampleArgs in
    let exampleArgs := if truthy (prop rawFlags "saveTilde") then exampleArgs ++ ["--tilde"] else exampleArgs in
    let command := if truthy (prop rawFlags "global") then "global add" else "add" in
    throw (MessageError (lang "installCommandRenamed"
                           [("yarn " ++ command ++ " " ++ join " " exampleArgs)%string]))
  else
    wrapLifecycle config
      (Install_new config rawFlags ;;
       init E config lockfile_ ;;
       ret tt).

(** ** A concrete installation

    A working directory [/proj] with the two registries of yarn, used to
    run the definitions above on actual inputs. *)
Module Sample.

(** What the integrity checker reports missing: the patterns without an
    entry in the lockfile cache. *)
Definition check (pats : list string) (lockfileCache : list (string * LockManifest)) (f : Flags)
    : IntegrityCheck :=
  {| integrityMatches := false;
     integrityFileMissing := true;
     missingPatterns :=
       List.filter (fun p => negb (bool_decide (is_Some (obj_get lockfileCache p)))) pats |}.

Definition engines : Engines :=
  {| registries := [("npm", "package.json"); ("yarn", "yarn.json")];
     LOCKFILE_FILENAME := "yarn.lock";
     CLEAN_FILENAME := ".yarnclean";
     getExoticResolver := fun _ => false;
     normalizePattern_name := split_head "@";
     normalizeManifest := fun json => json;
     lockStringify := fun lock => join "," (map fst lock);
     integrityChecker_check := check;
     resolver_init := fun _ _ r => r;
     getAllDependencyNamesByLevelOrder := fun _ _ => [];
     getAllInfoForPackageName := fun _ _ => [];
     collapseAllVersionsOfPackage := fun r name _ => (name, r);
     getResolvedPattern := fun r p => obj_get (r_patterns r) p;
     getStrictResolvedPattern := fun r p => obj_get (r_patterns r) p;
     getManifests := fun r => map snd (r_patterns r);
     updateManifest := fun r _ _ => r;
     fetcher_init := fun r => r;
     reporter_select := fun _ _ _ => "";
     toISOString_now := "2017-04-01T10:20:30.000Z";
     Lockfile_new := {| cache := None; getLocked := fun _ _ => None; getLockfile := fun _ => [] |};
     Lockfile_fromDirectory :=
       fun _ => {| cache := Some []; getLocked := fun _ _ => None; getLockfile := fun _ => [] |} |}.

Definition config (prod : bool) (json : RootManifest) : Config :=
  {| cwd := "/proj";
     production := prod;
     modulesFolder := None;
     cfg_pruneOfflineMirror := false;
     getOption := fun _ => JsUndefined;
     getOfflineMirrorPath := None;
     registryFolder := fun _ => "node_modules";
     readJson := fun _ => json;
     readManifest := fun _ => {| pkg_name := ""; pkg_version := ""; pkg_reference := None |};
     getRootManifests :=
       [("npm", {| rm_loc := "/proj/package.json"; rm_object := json; rm_exists := true |})];
     generateHardModulePath := fun _ => "" |}.

(** A lockfile with entries for the given patterns. *)
Definition lock_entry (p : string) : string * LockManifest :=
  (p, {| resolved := Some ("https://registry.example/" ++ p ++ "/-/" ++ p ++ "-1.0.0.tgz#0a1b")%string;
         version := "1.0.0" |}).

Definition lockfile_with (locked : list string) : Lockfile :=
  {| cache := Some (map lock_entry locked);
     getLocked := fun p _ => obj_get (map lock_entry locked) p;
     getLockfile := fun pats => map (fun kv => lock_entry (fst kv)) pats |}.

Definition no_flags : Flags :=
  normalizeFlags (fun _ => JsUndefined) ∅.

Definition empty_resolver : PackageResolver :=
  {| r_patterns := []; patternsByPackage := []; usedRegistries := []; r_references := [] |}.

Definition world (f : Flags) (disk : list (string * string)) : World :=
  {| flags := f; rootManifestRegistries := []; rootPatternsToOrigin := ∅; resolutions := [];
     resolver := empty_resolver; files := disk; trace := [] |}.

Definition deps_only (deps : list (string * string)) : RootManifest :=
  {| m_dependencies := Some deps; m_devDependencies := None; m_optionalDependencies := None;
     m_resolutions := None; m_flat := JsUndefined |}.

(** The same name and range in [dependencies] and [devDependencies]. *)
Definition twice : RootManifest :=
  {| m_dependencies := Some [("a", "^1.0.0")];
     m_devDependencies := Some [("a", "^1.0.0")];
     m_optionalDependencies := None;
     m_resolutions := None; m_flat := JsUndefined |}.

(** Two names, one of them with an [@] inside, that give one pattern. *)
Definition clash : RootManifest :=
  {| m_dependencies := Some [("a", "b@1")];
     m_devDependencies := Some [("a@b", "1")];
     m_optionalDependencies := None;
     m_resolutions := None; m_flat := JsUndefined |}.

(** A manifest with one name per category. *)
Definition tidy : RootManifest :=
  {| m_dependencies := Some [("a", "^1.0.0")];
     m_devDependencies := Some [("b", "^2.0.0")];
     m_optionalDependencies := Some [("@s/c", "*")];
     m_resolutions := None; m_flat := JsUndefined |}.

Definition disk : list (string * string) :=
  [("/proj/package.json", "{}"); ("/proj/yarn.json", "{}")].

(** A lockfile image for [x] and [y] and a mirror holding a stale tarball. *)
Definition two_tarballs : list (string * LockManifest) :=
  [("x@^1.0.0", {| resolved := Some "https://registry.example/x/-/x-1.tgz#0a1b"; version := "1.0.0" |});
   ("y@^2.0.0", {| resolved := Some "https://registry.example/y/-/y-2.tgz#2c3d"; version := "2.0.0" |})].

Definition mirror_disk : list (string * string) :=
  [("/mirror/x-1.tgz", "x"); ("/mirror/y-2.tgz", "y"); ("/mirror/z-old.tgz", "z");
   ("/proj/package.json", "{}")].

Definition mirror_config : Config :=
  {| cwd := "/proj";
     production := false;
     modulesFolder := None;
     cfg_pruneOfflineMirror := true;
     getOption := fun _ => JsUndefined;
     getOfflineMirrorPath := Some "/mirror";
     registryFolder := fun _ => "node_modules";
     readJson := fun _ => empty_manifest;
     readManifest := fun _ => {| pkg_name := ""; pkg_version := ""; pkg_reference := None |};
     getRootManifests := [];
     generateHardModulePath := fun _ => "" |}.

Definition pure_flags : Flags :=
normalizeFlags (fun _ => JsUndefined) {[ "pureLockfile" := JsBool true ]}.


Definition frozen_force_flags : Flags :=
normalizeFlags (fun _ => JsUndefined) {[ "frozenLockfile" := JsBool true; "force" := JsBool true ]}.

(** A flat project: [b] is resolved to two versions, and the user picks
    [2.0.0] at the prompt. *)
Definition flat_manifest : RootManifest :=
{| m_dependencies := Some [("b", "^1.0.0"); ("c", "^1.0.0")];
   m_devDependencies := None; m_optionalDependencies := None;
   m_resolutions := None; m_flat := JsBool true |}.

Definition b1 : Manifest := {| pkg_name := "b"; pkg_version := "1.0.0"; pkg_reference := Some 0%nat |}.
Definition b2 : Manifest := {| pkg_name := "b"; pkg_version := "2.0.0"; pkg_reference := Some 1%nat |}.
Definition c1 : Manifest := {| pkg_name := "c"; pkg_version := "1.0.0"; pkg_reference := Some 2%nat |}.

Definition flat_resolver : PackageResolver :=
{| r_patterns := [("b@^1.0.0", b1); ("c@^1.0.0", c1); ("b@^2.0.0", b2)];
   patternsByPackage := [("b", ("b@^1.0.0", ["b@^2.0.0"])); ("c", ("c@^1.0.0", []))];
   usedRegistries := ["npm"];
   r_references :=
     [ {| ref_requests := ["b@^1.0.0"]; ref_ignore := false;
          ref_patterns := ["b@^1.0.0"]; ref_registry := "npm" |};
       {| ref_requests := ["b@^2.0.0"]; ref_ignore := false;
          ref_patterns := ["b@^2.0.0"]; ref_registry := "npm" |};
       {| ref_requests := ["c@^1.0.0"]; ref_ignore := false;
          ref_patterns := ["c@^1.0.0"]; ref_registry := "npm" |} ] |}.

Definition flat_engines : Engines :=
{| registries := [("npm", "package.json"); ("yarn", "yarn.json")];
   LOCKFILE_FILENAME := "yarn.lock";
   CLEAN_FILENAME := ".yarnclean";
   getExoticResolver := fun _ => false;
   normalizePattern_name := split_head "@";
   normalizeManifest := fun json => json;
   lockStringify := fun lock => join "," (map fst lock);
   integrityChecker_check := check;
   resolver_init := fun _ _ _ => flat_resolver;
   getAllDependencyNamesByLevelOrder := fun _ _ => ["b"; "c"];
   getAllInfoForPackageName :=
     fun r name => List.filter (fun mf => String.eqb (pkg_name mf) name) (map snd (r_patterns r));
   collapseAllVersionsOfPackage := fun r name ver => ((name ++ "@" ++ ver)%string, r);
   getResolvedPattern := fun r p => obj_get (r_patterns r) p;
   getStrictResolvedPattern := fun r p => obj_get (r_patterns r) p;
   getManifests := fun r => map snd (r_patterns r);
   updateManifest := fun r _ _ => r;
   fetcher_init := fun r => r;
   reporter_select := fun _ _ _ => "2.0.0";
   toISOString_now := "2017-04-01T10:20:30.000Z";
   Lockfile_new := {| cache := None; getLocked := fun _ _ => None; getLockfile := fun _ => [] |};
   Lockfile_fromDirectory :=
     fun _ => {| cache := Some []; getLocked := fun _ _ => None; getLockfile := fun _ => [] |} |}.

(** The root manifest with the choice recorded. *)
Definition flat_manifest_saved : list (string * RootManifestFile) :=
[("npm", {| rm_loc := "/proj/package.json";
            rm_object := set_m_resolutions flat_manifest (Some [("b", "2.0.0")]);
            rm_exists := true |})].

Definition flat_flags : Flags :=
normalizeFlags (fun _ => JsUndefined) {[ "flat" := JsBool true ]}.

(** The flat project after resolution. *)
Definition flat_world (res : list (string * string)) : World :=
{| flags := flat_flags; rootManifestRegistries := ["npm"]; rootPatternsToOrigin := ∅;
   resolutions := res; resolver := flat_resolver; files := disk; trace := [] |}.

(** [ignore-scripts] set in the config. *)
Definition scripts_off_flags : Flags :=
normalizeFlags (fun k => if String.eqb k "ignore-scripts" then JsBool true else JsUndefined) ∅.

(** An integrity checker that finds the installation up to date. *)
Definition up_to_date_engines : Engines :=
{| registries := registries engines;
   LOCKFILE_FILENAME := LOCKFILE_FILENAME engines;
   CLEAN_FILENAME := CLEAN_FILENAME engines;
   getExoticResolver := getExoticResolver engines;
   normalizePattern_name := normalizePattern_name engines;
   normalizeManifest := normalizeManifest engines;
   lockStringify := lockStringify engines;
   integrityChecker_check :=
     fun _ _ _ => {| integrityMatches := true; integrityFileMissing := false;
                     missingPatterns := [] |};
   resolver_init := resolver_init engines;
   getAllDependencyNamesByLevelOrder := getAllDependencyNamesByLevelOrder engines;
   getAllInfoForPackageName := getAllInfoForPackageName engines;
   collapseAllVersionsOfPackage := collapseAllVersionsOfPackage engines;
   getResolvedPattern := getResolvedPattern engines;
   getStrictResolvedPattern := getStrictResolvedPattern engines;
   getManifests := getManifests engines;
   updateManifest := updateManifest engines;
   fetcher_init := fetcher_init engines;
   reporter_select := reporter_select engines;
   toISOString_now := toISOString_now engines;
   Lockfile_new := Lockfile_new engines;
   Lockfile_fromDirectory := Lockfile_fromDirectory engines |}.

Definition locked_disk : list (string * string) :=
[("/proj/package.json", "{}"); ("/proj/yarn.lock", "a@^1.0.0")].

End Sample.

(** The arguments [run] appends to the suggested command, from the
    [save-*] flags of the invocation. *)
Definition save_flags (rawFlags : gmap string JsVal) : list string :=
  flat_map (fun kv => if truthy (prop rawFlags (fst kv)) then [snd kv] else [])
    [("saveDev", "--dev"); ("savePeer", "--peer"); ("saveOptional", "--optional");
     ("saveExact", "--exact"); ("saveTilde", "--tilde")].

(** ** Vocabulary of the properties *)

(** The entries of a dependency map whose name is not among the excluded
    names. *)
Definition not_excluded (excludeNames : list string) (depMap : list (string * string))
    : list (string * string) :=
  List.filter (fun e => negb (existsb (String.eqb (fst e)) excludeNames)) depMap.

(** The entries of one category that are turned into requests: none when
    unused categories are left out and the category is unused. *)
Definition processed (json : RootManifest) (excludeNames : list string)
    (ignoreUnusedPatterns isUsed : bool) (depType : DepType) : list (string * string) :=
  if ignoreUnusedPatterns && negb isUsed then []
  else not_excluded excludeNames (default [] (depMapOf json depType)).

(** The shape of a pattern: the bare name under a lock, [name@range]
    otherwise. *)
Definition pattern_shape (lf : Lockfile) (e : string * string) : string :=
  match getLocked lf (fst e) true with
  | Some _ => fst e
  | None => (fst e ++ "@" ++ snd e)%string
  end.

(** The request made of an entry. *)
Definition request_of (lf : Lockfile) (registry : string) (hint : option string) (opt : bool)
    (e : string * string) : DependencyRequest :=
  {| req_pattern := pattern_shape lf e; req_registry := registry;
     req_hint := hint; req_optional := opt |}.

(** The names a category declares. *)
Definition declared (json : RootManifest) (depType : DepType) : list string :=
  map fst (default [] (depMapOf json depType)).

(** No name is declared in two categories. *)
Definition categories_disjoint (json : RootManifest) : Prop :=
  forall d1 d2 n, In n (declared json d1) -> In n (declared json d2) -> d1 = d2.

Fixpoint has_at (s : string) : bool :=
  match s with
  | EmptyString => false
  | String a s' => Ascii.eqb a "@" || has_at s'
  end.

(** A package name: not empty, and no [@] after its first character (a
    scope starts with one). *)
Definition plain_name (n : string) : bool :=
  match n with
  | EmptyString => false
  | String _ t => negb (has_at t)
  end.

Definition plain_names (json : RootManifest) : Prop :=
  forall d n, In n (declared json d) -> plain_name n = true.

(** The name a pattern starts with. *)
Definition name_part (p : string) : string :=
  match p with
  | EmptyString => EmptyString
  | String a t => String a (split_head "@" t)
  end.

(** Whether the root manifest of a registry exists in [cwd]. *)
Definition manifest_exists (config : Config) (w : World) (r : string * string) : bool :=
  existsb (fun f => String.eqb (fst f) (path.join (cwd config) (snd r))) (files w).

(** The same surroundings with another [registries] table. *)
Definition set_registries (E : Engines) (regs : list (string * string)) : Engines :=
  {| registries := regs;
     LOCKFILE_FILENAME := LOCKFILE_FILENAME E;
     CLEAN_FILENAME := CLEAN_FILENAME E;
     getExoticResolver := getExoticResolver E;
     normalizePattern_name := normalizePattern_name E;
     normalizeManifest := normalizeManifest E;
     lockStringify := lockStringify E;
     integrityChecker_check := integrityChecker_check E;
     resolver_init := resolver_init E;
     getAllDependencyNamesByLevelOrder := getAllDependencyNamesByLevelOrder E;
     getAllInfoForPackageName := getAllInfoForPackageName E;
     collapseAllVersionsOfPackage := collapseAllVersionsOfPackage E;
     getResolvedPattern := getResolvedPattern E;
     getStrictResolvedPattern := getStrictResolvedPattern E;
     getManifests := getManifests E;
     updateManifest := updateManifest E;
     fetcher_init := fetcher_init E;
     reporter_select := reporter_select E;
     toISOString_now := toISOString_now E;
     Lockfile_new := Lockfile_new E;
     Lockfile_fromDirectory := Lockfile_fromDirectory E |}.

(** The entries of the three categories that become requests, in the
    order they are visited; those of the used categories; those of the
    unused ones.  [prod] is [config.production], [ignOpt] is
    [flags.ignoreOptional]. *)
Definition entries_of (json : RootManifest) (ex : list string) (ign prod ignOpt : bool)
    : list (string * string) :=
  processed json ex ign true dependencies
  ++ processed json ex ign (negb prod) devDependencies
  ++ processed json ex ign (negb ignOpt) optionalDependencies.

Definition used_entries (json : RootManifest) (ex : list string) (prod ignOpt : bool)
    : list (string * string) :=
  not_excluded ex (default [] (depMapOf json dependencies))
  ++ (if prod then [] else not_excluded ex (default [] (depMapOf json devDependencies)))
  ++ (if ignOpt then [] else not_excluded ex (default [] (depMapOf json optionalDependencies))).

Definition ignored_entries (json : RootManifest) (ex : list string) (ign prod ignOpt : bool)
    : list (string * string) :=
  (if prod then processed json ex ign false devDependencies else [])
  ++ (if ignOpt then processed json ex ign false optionalDependencies else []).

(** A tarball basename the lockfile requires: the basename of the
    [resolved] field of some entry, cut at the first [#]. *)
Definition required (lock : list (string * LockManifest)) (b : string) : Prop :=
  exists dependency entry res,
    In (dependency, entry) lock /\ resolved entry = Some res /\ res <> "" /\
    b = path.basename (split_head "#" res).




(** The actions of the fetch, link and script steps of the pipeline. *)
Definition fetch_link_or_script (e : Event) : bool :=
  match e with
  | FetcherInit | CompatibilityInit | RemoveIntegrityFile | LinkerInit _ _ | ScriptsInit _ => true
  | _ => false
  end.

(** An event that is none of the actions of the fetch, link and script
    steps. *)
Definition early (e : Event) : Prop := fetch_link_or_script e = false.

(** [quiet P c]: whatever [c] returns or throws, it keeps the flags and
    only appends events satisfying [P] to the trace. *)
Definition extends_by (P : Event -> Prop) (w w' : World) : Prop :=
  exists evs, trace w' = trace w ++ evs /\ Forall P evs.

Definition quiet (P : Event -> Prop) {A : Type} (c : M A) : Prop :=
  forall w, flags (snd (c w)) = flags w /\ extends_by P w (snd (c w)).

(** The origins recorded for the patterns of a list of entries of one
    category, in the order of the entries. *)
Definition record_origins (lf : Lockfile) (depType : DepType) (entries : list (string * string))
    (origins : gmap string DepType) : gmap string DepType :=
  fold_left (fun m e => <[pattern_shape lf e := depType]> m) entries origins.

(** The hint [pushDeps] is called with for each category. *)
Definition hint_of (depType : DepType) : option string :=
  match depType with
  | dependencies => None
  | devDependencies => Some "dev"
  | optionalDependencies => Some "optional"
  end.

(** What [markIgnored] may do to a world: set [ignore] on references that
    have exactly one request, and nothing else. *)
Definition marks_only (w w' : World) : Prop :=
  flags w' = flags w /\ files w' = files w /\ trace w' = trace w /\
  resolutions w' = resolutions w /\
  rootManifestRegistries w' = rootManifestRegistries w /\
  rootPatternsToOrigin w' = rootPatternsToOrigin w /\
  r_patterns (resolver w') = r_patterns (resolver w) /\
  patternsByPackage (resolver w') = patternsByPackage (resolver w) /\
  usedRegistries (resolver w') = usedRegistries (resolver w) /\
  length (r_references (resolver w')) = length (r_references (resolver w)) /\
  forall i ref',
    r_references (resolver w') !! i = Some ref' ->
    exists ref,
      r_references (resolver w) !! i = Some ref /\
      ref_requests ref' = ref_requests ref /\
      ref_patterns ref' = ref_patterns ref /\
      ref_registry ref' = ref_registry ref /\
      (ref_ignore ref' = ref_ignore ref \/
       (ref_ignore ref' = true /\ length (ref_requests ref) = 1%nat)).

(** [getUpdateCommand()], as a function of the installation method and
    of [constants.YARN_INSTALLER_SH]. *)
Definition getUpdateCommand (YARN_INSTALL_METHOD YARN_INSTALLER_SH : string) : option string :=
  if String.eqb YARN_INSTALL_METHOD "tar" then
    Some ("curl -o- -L " ++ YARN_INSTALLER_SH ++ " | bash")%string
  else if String.eqb YARN_INSTALL_METHOD "homebrew" then Some "brew upgrade yarn"
  else if String.eqb YARN_INSTALL_METHOD "deb" then
    Some "sudo apt-get update && sudo apt-get install yarn"
  else if String.eqb YARN_INSTALL_METHOD "rpm" then Some "sudo yum install yarn"
  else if String.eqb YARN_INSTALL_METHOD "npm" then Some "npm upgrade --global yarn"
  else if String.eqb YARN_INSTALL_METHOD "chocolatey" then Some "choco upgrade yarn"
  else if String.eqb YARN_INSTALL_METHOD "apk" then Some "apk update && apk add -u yarn"
  else None.

(** [getUpdateInstaller()], as a function of the installation method and
    of [constants.YARN_INSTALLER_MSI]. *)
Definition getUpdateInstaller (YARN_INSTALL_METHOD YARN_INSTALLER_MSI : string) : option string :=
  (* Windows *)
  if String.eqb YARN_INSTALL_METHOD "msi" then Some YARN_INSTALLER_MSI
  else None.

(** The calls on the reporter made by the [maybeOutputUpdate] that
    [_checkUpdate] installs when a newer version exists. *)
Inductive ReporterCall : Type :=
| CallWarn (msg : Message)
| CallInfo (msg : Message)
| CallCommand (command : string).

Definition outdatedOutput (latestVersion YARN_VERSION YARN_INSTALL_METHOD
    YARN_INSTALLER_SH YARN_INSTALLER_MSI : string) : list ReporterCall :=
  CallWarn (lang "yarnOutdated" [latestVersion; YARN_VERSION])
  :: match nonempty (getUpdateCommand YARN_INSTALL_METHOD YARN_INSTALLER_SH) with
     | Some command => [CallInfo (lang "yarnOutdatedCommand" []); CallCommand command]
     | None =>
         match nonempty (getUpdateInstaller YARN_INSTALL_METHOD YARN_INSTALLER_MSI) with
         | Some installer => [CallInfo (lang "yarnOutdatedInstaller" [installer])]
         | None => []
         end
     end.

(** The manifests of a package that are not ignored, as [flatten] filters
    them; [None] when one of them has no reference. *)
Fixpoint live (r : PackageResolver) (infos : list Manifest) : option (list Manifest) :=
  match infos with
  | [] => Some []
  | mf :: rest =>
      match reference_of r mf with
      | None => None
      | Some ref =>
          match live r rest with
          | None => None
          | Some kept => Some (if negb (ref_ignore ref) then mf :: kept else kept)
          end
      end
  end.

(** The states the resolver goes through when versions are collapsed. *)
Inductive collapsed (E : Engines) (r0 : PackageResolver) : PackageResolver -> Prop :=
| collapsed_here : collapsed E r0 r0
| collapsed_step (r : PackageResolver) (name ver : string) :
    collapsed E r0 r -> collapsed E r0 (snd (collapseAllVersionsOfPackage E r name ver)).

(** Every package of [names] that has several live versions has a
    resolution, and it is one of these versions. *)
Definition resolutions_cover (E : Engines) (r0 : PackageResolver) (res : list (string * string))
    (names : list string) : Prop :=
  forall r name infos,
    collapsed E r0 r -> In name names ->
    live r (getAllInfoForPackageName E r name) = Some infos ->
    (2 <= length infos)%nat ->
    exists v, nonempty (obj_get res name) = Some v /\ In v (map pkg_version infos).

(** Root manifests that differ in their [resolutions] at most. *)
Definition same_but_resolutions (ms ms' : list (string * RootManifestFile)) : Prop :=
  Forall2
    (fun a b =>
       fst a = fst b /\
       rm_loc (snd a) = rm_loc (snd b) /\
       rm_exists (snd a) = rm_exists (snd b) /\
       m_dependencies (rm_object (snd a)) = m_dependencies (rm_object (snd b)) /\
       m_devDependencies (rm_object (snd a)) = m_devDependencies (rm_object (snd b)) /\
       m_optionalDependencies (rm_object (snd a)) = m_optionalDependencies (rm_object (snd b)) /\
       m_flat (rm_object (snd a)) = m_flat (rm_object (snd b)))
    ms ms'.

(** An event that is no prompt of the user. *)
Definition no_prompt (e : Event) : Prop := forall q a o, e <> ReporterSelect q a o.

(** The events [init] can give rise to under given flags. *)
Definition allowed (fl : Flags) (e : Event) : bool :=
  match e with
  | ScriptsInit _ => negb (ignoreScripts fl)
  | SaveHar _ => har fl
  | IntegrityCheckRun _ => negb (skipIntegrityCheck fl || force fl)
  | IntegritySave _ _ | WriteFilePreservingEol _ _ | Unlink _ =>
      lockfile fl && negb (pureLockfile fl)
  | LockfileFromDirectory _ | ExecuteLifecycleScript _ | ReadManifest _ | UpdateManifest _ _ =>
      false
  | _ => true
  end.

(** An event [init] can give rise to under the flags [fl]. *)
Definition permitted (fl : Flags) (e : Event) : Prop := allowed fl e = true.

(** [keeps fl P c]: started with the flags [fl], [c] ends with the flags
    [fl] and appends only events satisfying [P]. *)
Definition keeps (fl : Flags) (P : Event -> Prop) {A : Type} (c : M A) : Prop :=
  forall w, flags w = fl -> flags (snd (c w)) = fl /\ extends_by P w (snd (c w)).

(** The events [hydrate] can give rise to. *)
Definition hydrate_event (e : Event) : bool :=
  match e with
  | ReadJson _ | ResolverInit _ _ | ReporterSelect _ _ _ | CollapseAllVersionsOfPackage _ _
  | SaveRootManifests _ | FetcherInit | CompatibilityInit | ReadManifest _
  | UpdateManifest _ _ => true
  | _ => false
  end.

(** The events of a [hydrate] that only reads. *)
Definition reads_only (e : Event) : bool :=
  match e with
  | ReadJson _ | ResolverInit _ _ | FetcherInit | CompatibilityInit | ReadManifest _
  | UpdateManifest _ _ => true
  | _ => false
  end.

(** The events of an install that finds itself up to date. *)
Definition checks_only (e : Event) : bool :=
  match e with
  | CheckUpdate | ReporterWarn _ | ReadJson _ | ReporterStep _ _ _ | ResolverInit _ _
  | IntegrityCheckRun _ | ReporterSuccess _ => true
  | _ => false
  end.

(** * Properties *)

(** ** Flag normalisation *)

(** C6. Flag normalisation is monotone in the forcing config options: a
    truthy [ignore-scripts], [ignore-platform], [ignore-engines],
    [ignore-optional] or [force] option makes the corresponding effective
    flag true whatever the raw flag is, and a truthy raw flag is never
    turned off by the config. *)
Theorem normalizeFlags_forcing_monotone (getOpt : string -> JsVal) (rawFlags : gmap string JsVal) :
  (truthy (getOpt "ignore-scripts") = true -> ignoreScripts (normalizeFlags getOpt rawFlags) = true) /\
  (truthy (getOpt "ignore-platform") = true -> ignorePlatform (normalizeFlags getOpt rawFlags) = true) /\
  (truthy (getOpt "ignore-engines") = true -> ignoreEngines (normalizeFlags getOpt rawFlags) = true) /\
  (truthy (getOpt "ignore-optional") = true -> ignoreOptional (normalizeFlags getOpt rawFlags) = true) /\
  (truthy (getOpt "force") = true -> force (normalizeFlags getOpt rawFlags) = true) /\
  (truthy (prop rawFlags "har") = true -> har (normalizeFlags getOpt rawFlags) = true) /\
  (truthy (prop rawFlags "ignorePlatform") = true -> ignorePlatform (normalizeFlags getOpt rawFlags) = true) /\
  (truthy (prop rawFlags "ignoreEngines") = true -> ignoreEngines (normalizeFlags getOpt rawFlags) = true) /\
  (truthy (prop rawFlags "ignoreScripts") = true -> ignoreScripts (normalizeFlags getOpt rawFlags) = true) /\
  (truthy (prop rawFlags "ignoreOptional") = true -> ignoreOptional (normalizeFlags getOpt rawFlags) = true) /\
  (truthy (prop rawFlags "force") = true -> force (normalizeFlags getOpt rawFlags) = true) /\
  (truthy (prop rawFlags "flat") = true -> flat (normalizeFlags getOpt rawFlags) = true) /\
  (truthy (prop rawFlags "lockfile") = true -> lockfile (normalizeFlags getOpt rawFlags) = true) /\
  (truthy (prop rawFlags "pureLockfile") = true -> pureLockfile (normalizeFlags getOpt rawFlags) = true) /\
  (truthy (prop rawFlags "skipIntegrityCheck") = true -> skipIntegrityCheck (normalizeFlags getOpt rawFlags) = true) /\
  (truthy (prop rawFlags "frozenLockfile") = true -> frozenLockfile (normalizeFlags getOpt rawFlags) = true) /\
  (truthy (prop rawFlags "linkDuplicates") = true -> linkDuplicates (normalizeFlags getOpt rawFlags) = true) /\
  (truthy (prop rawFlags "checkFiles") = true -> checkFiles (normalizeFlags getOpt rawFlags) = true) /\
  (truthy (prop rawFlags "peer") = true -> peer (normalizeFlags getOpt rawFlags) = true) /\
  (truthy (prop rawFlags "dev") = true -> dev (normalizeFlags getOpt rawFlags) = true) /\
  (truthy (prop rawFlags "optional") = true -> optional (normalizeFlags getOpt rawFlags) = true) /\
  (truthy (prop rawFlags "exact") = true -> exact (normalizeFlags getOpt rawFlags) = true) /\
  (truthy (prop rawFlags "tilde") = true -> tilde (normalizeFlags getOpt rawFlags) = true).
Proof.
  unfold normalizeFlags.
  destruct (truthy (getOpt "ignore-scripts")), (truthy (getOpt "ignore-platform")),
    (truthy (getOpt "ignore-engines")), (truthy (getOpt "ignore-optional")),
    (truthy (getOpt "force")); cbn;
    repeat split; intros H; try exact H; try reflexivity; try discriminate H;
    destruct (prop rawFlags "lockfile") as [| |[]| | |]; cbn in *; congruence.
Qed.

(** A config that forces [ignore-scripts] and [force] against raw flags
    that switch them off, and a raw [flat] flag that the config leaves on. *)
Lemma normalizeFlags_forcing_monotone_witness :
  let getOpt := fun k : string =>
    if String.eqb k "ignore-scripts" then JsBool true
    else if String.eqb k "force" then JsStr "yes" else JsUndefined in
  let rawFlags : gmap string JsVal :=
    {[ "ignoreScripts" := JsBool false; "force" := JsBool false; "flat" := JsNum 1 ]} in
  ignoreScripts (normalizeFlags getOpt rawFlags) = true /\
  force (normalizeFlags getOpt rawFlags) = true /\
  flat (normalizeFlags getOpt rawFlags) = true.
Proof.
  intros getOpt rawFlags.
  pose proof (normalizeFlags_forcing_monotone getOpt rawFlags) as H.
  destruct H as (Hs & _ & _ & _ & Hf & _ & _ & _ & _ & _ & _ & Hflat & _).
  split; [apply Hs; reflexivity | split; [apply Hf; reflexivity | apply Hflat; vm_compute; reflexivity]].
Defined.

(** ** The positional arguments of the command *)

Lemma length_eqb_0_nil {A : Type} (l : list A) : l <> [] -> (length l =? 0)%nat = false.
Proof. destruct l; [congruence | reflexivity]. Qed.

Lemma run_example_args (rawFlags : gmap string JsVal) (args : list string) :
  (let exampleArgs := args in
   let exampleArgs := if truthy (prop rawFlags "saveDev") then exampleArgs ++ ["--dev"] else exampleArgs in
   let exampleArgs := if truthy (prop rawFlags "savePeer") then exampleArgs ++ ["--peer"] else exampleArgs in
   let exampleArgs := if truthy (prop rawFlags "saveOptional") then exampleArgs ++ ["--optional"] else exampleArgs in
   let exampleArgs := if truthy (prop rawFlags "saveExact") then exampleArgs ++ ["--exact"] else exampleArgs in
   let exampleArgs := if truthy (prop rawFlags "saveTilde") then exampleArgs ++ ["--tilde"] else exampleArgs in
   exampleArgs) = args ++ save_flags rawFlags.
Proof.
  unfold save_flags; cbn.
  destruct (truthy (prop rawFlags "saveDev")), (truthy (prop rawFlags "savePeer")),
    (truthy (prop rawFlags "saveOptional")), (truthy (prop rawFlags "saveExact")),
    (truthy (prop rawFlags "saveTilde")); cbn;
    rewrite <- ?app_assoc; cbn; rewrite ?app_nil_r; reflexivity.
Qed.

(** C9. With a non-empty list of positional arguments, [run] throws a
    [MessageError] that suggests [yarn add] (or [yarn global add] under the
    [global] flag) with the arguments followed by the [save-*] flags; no
    [Install] is built and no lifecycle script or pipeline step runs: the
    world is untouched but for the loading of the lockfile. *)
Theorem run_rejects_positional_args (E : Engines) (config : Config)
    (rawFlags : gmap string JsVal) (args : list string) (w : World) :
  args <> [] ->
  run E config rawFlags args w =
    (Throw (MessageError
              (lang "installCommandRenamed"
                 [("yarn " ++ (if truthy (prop rawFlags "global") then "global add" else "add")
                   ++ " " ++ join " " (args ++ save_flags rawFlags))%string])),
     if strict_ne_false (prop rawFlags "lockfile")
     then set_trace w (trace w ++ [LockfileFromDirectory (cwd config)])
     else w).
Proof.
  intros Hargs. unfold run, bind.
  rewrite (length_eqb_0_nil args Hargs). cbn [negb].
  rewrite run_example_args.
  destruct (strict_ne_false (prop rawFlags "lockfile")); reflexivity.
Qed.

(** [yarn install foo --save-dev] is answered with [yarn add foo --dev]. *)
Lemma run_rejects_positional_args_witness :
  let w := Sample.world Sample.no_flags [] in
  run Sample.engines (Sample.config false empty_manifest) {[ "saveDev" := JsBool true ]} ["foo"] w =
    (Throw (MessageError (lang "installCommandRenamed" ["yarn add foo --dev"])),
     set_trace w [LockfileFromDirectory "/proj"]).
Proof.
  intros w.
  rewrite (run_rejects_positional_args Sample.engines (Sample.config false empty_manifest)
             {[ "saveDev" := JsBool true ]} ["foo"] w); [| discriminate].
  vm_compute. reflexivity.
Defined.

(** ** Flattening *)

(** The guard at the head of [flatten]. *)
Lemma flatten_not_flat (E : Engines) (config : Config) (pats : list string) (w : World) :
  flat (flags w) = false -> flatten E config pats w = ret pats w.
Proof.
  intros Hflat. unfold flatten, bind, get. rewrite Hflat. reflexivity.
Qed.

(** C10. When [flags.flat] is false, [flatten] gives back the list it was
    given and leaves the world as it was: no prompt, no collapse in the
    resolver, no root manifest saved. *)
Theorem flatten_identity_when_not_flat (E : Engines) (config : Config)
    (pats : list string) (w : World) :
  flat (flags w) = false ->
  flatten E config pats w = (Ok pats, w).
Proof.
  intros Hflat. unfold flatten. unfold bind at 1, get at 1.
  destruct (flat (flags w)); [discriminate Hflat |]. cbn [negb]. reflexivity.
Qed.

Lemma flatten_identity_when_not_flat_witness :
  let w := Sample.world Sample.no_flags [] in
  flat (flags w) = false /\
  flatten Sample.engines (Sample.config false empty_manifest) ["a@^1.0.0"; "b"] w
    = (Ok ["a@^1.0.0"; "b"], w).
Proof.
  intros w. split; [reflexivity |].
  apply (flatten_identity_when_not_flat Sample.engines (Sample.config false empty_manifest)
           ["a@^1.0.0"; "b"] w).
  reflexivity.
Defined.

(** Projections of an updated world. *)
Ltac world_simpl :=
  cbn [flags rootManifestRegistries rootPatternsToOrigin resolutions resolver files trace
       set_flags set_rootManifestRegistries set_rootPatternsToOrigin set_resolutions
       set_resolver set_files set_trace] in *.

(** ** Request collection *)

Section Collect.

Variable E : Engines.
Variable config : Config.
Variable lf : Lockfile.

Lemma patternOf_shape (e : string * string) :
  patternOf lf (fst e) (snd e) = pattern_shape lf e.
Proof.
  unfold patternOf, pattern_shape.
  destruct (getLocked lf (fst e) true) as [m |].
  - rewrite bool_decide_eq_true_2; [reflexivity | eauto].
  - rewrite bool_decide_eq_false_2; [reflexivity | intros [m Hm]; discriminate].
Qed.

(** What the loop of [pushDeps] appends to the four arrays. *)
Lemma pushDepsLoop_arrays registry ex depType hint opt isUsed depMap :
  forall a m,
    fst (pushDepsLoop lf registry ex depType hint opt isUsed depMap (a, m)) =
      {| a_patterns := a_patterns a ++ map (pattern_shape lf) (not_excluded ex depMap);
         a_deps := a_deps a ++ map (request_of lf registry hint opt) (not_excluded ex depMap);
         a_ignorePatterns :=
           a_ignorePatterns a
           ++ (if isUsed then [] else map (pattern_shape lf) (not_excluded ex depMap));
         a_usedPatterns :=
           a_usedPatterns a
           ++ (if isUsed then map (pattern_shape lf) (not_excluded ex depMap) else []) |}.
Proof.
  induction depMap as [| [name range] rest IH]; intros a m.
  - cbn. destruct a, isUsed; cbn; rewrite ?app_nil_r; reflexivity.
  - cbn [pushDepsLoop not_excluded List.filter fst snd].
    destruct (existsb (String.eqb name) ex) eqn:Hex; cbn [negb].
    + apply IH.
    + rewrite IH. cbn [a_patterns a_deps a_ignorePatterns a_usedPatterns fst snd map].
      pose proof (patternOf_shape (name, range)) as Hp. cbn [fst snd] in Hp. rewrite Hp.
      destruct isUsed; cbn; rewrite <- ?app_assoc; reflexivity.
Qed.

Lemma pushDeps_arrays json registry ex ign depType hint opt isUsed a m :
  fst (pushDeps lf json registry ex ign depType hint opt isUsed (a, m)) =
    {| a_patterns := a_patterns a ++ map (pattern_shape lf) (processed json ex ign isUsed depType);
       a_deps :=
         a_deps a ++ map (request_of lf registry hint opt) (processed json ex ign isUsed depType);
       a_ignorePatterns :=
         a_ignorePatterns a
         ++ (if isUsed then [] else map (pattern_shape lf) (processed json ex ign isUsed depType));
       a_usedPatterns :=
         a_usedPatterns a
         ++ (if isUsed then map (pattern_shape lf) (processed json ex ign isUsed depType) else []) |}.
Proof.
  unfold pushDeps, processed.
  destruct (ign && negb isUsed) eqn:Hskip.
  - destruct a, isUsed; cbn; rewrite ?app_nil_r; reflexivity.
  - apply pushDepsLoop_arrays.
Qed.

(** The loop stops at the first registry whose manifest exists. *)
Lemma registryLoop_find regs ex ign a mf w :
  registryLoop E config lf regs ex ign a mf w =
    match find (manifest_exists config w) regs with
    | Some r => readRootManifest E config lf (fst r) (path.join (cwd config) (snd r)) ex ign a w
    | None => (Ok (a, mf), w)
    end.
Proof.
  induction regs as [| [registry filename] rest IH]; [reflexivity |].
  cbn [registryLoop find]. unfold bind at 1. unfold fs.exists_ at 1.
  unfold manifest_exists at 1. cbn [snd fst].
  destruct (existsb _ (files w)); cbn [negb]; [reflexivity | apply IH].
Qed.

(** What processing a root manifest gives and does. *)
Lemma readRootManifest_spec registry loc ex ign w :
  let json := normalizeManifest E (readJson config loc) in
  let shape := pattern_shape lf in
  let empty := {| a_patterns := []; a_deps := []; a_ignorePatterns := []; a_usedPatterns := [] |} in
  exists a w',
    readRootManifest E config lf registry loc ex ign empty w = (Ok (a, json), w') /\
    a_patterns a = map shape (entries_of json ex ign (production config) (ignoreOptional (flags w))) /\
    map req_pattern (a_deps a) = a_patterns a /\
    a_usedPatterns a = map shape (used_entries json ex (production config) (ignoreOptional (flags w))) /\
    a_ignorePatterns a =
      map shape (ignored_entries json ex ign (production config) (ignoreOptional (flags w))) /\
    flags w' = flags w /\
    files w' = files w /\
    resolver w' = resolver w /\
    resolutions w' = obj_assign (resolutions w) (default [] (m_resolutions json)) /\
    rootManifestRegistries w' = rootManifestRegistries w ++ [registry] /\
    trace w' = trace w ++ [ReadJson loc].
Proof.
  intros json shape empty.
  cbv [readRootManifest bind modify emit get ret]. world_simpl.
  fold json.
  set (m0 := rootPatternsToOrigin w).
  destruct (pushDeps lf json registry ex ign dependencies None false true (empty, m0))
    as [a1 m1] eqn:H1.
  pose proof (pushDeps_arrays json registry ex ign dependencies None false true empty m0) as P1.
  rewrite H1 in P1. cbn [fst] in P1.
  destruct (pushDeps lf json registry ex ign devDependencies (Some "dev") false
              (negb (production config)) (a1, m1)) as [a2 m2] eqn:H2.
  pose proof (pushDeps_arrays json registry ex ign devDependencies (Some "dev") false
                (negb (production config)) a1 m1) as P2.
  rewrite H2 in P2. cbn [fst] in P2.
  destruct (pushDeps lf json registry ex ign optionalDependencies (Some "optional") true
              (negb (ignoreOptional (flags w))) (a2, m2)) as [a3 m3] eqn:H3.
  pose proof (pushDeps_arrays json registry ex ign optionalDependencies (Some "optional") true
                (negb (ignoreOptional (flags w))) a2 m2) as P3.
  rewrite H3 in P3. cbn [fst] in P3.
  eexists _, _. split; [reflexivity |].
  subst a3 a2 a1. cbn.
  unfold entries_of, used_entries, ignored_entries, shape.
  repeat split.
  - rewrite !map_app, <- ?app_assoc. reflexivity.
  - rewrite !map_app, !map_map, <- ?app_assoc. reflexivity.
  - rewrite !map_app, <- ?app_assoc. unfold processed.
    destruct (production config), (ignoreOptional (flags w)); cbn;
      rewrite ?andb_false_r, ?app_nil_r; reflexivity.
  - rewrite !map_app, <- ?app_assoc.
    destruct (production config), (ignoreOptional (flags w)); cbn;
      rewrite ?app_nil_r; reflexivity.
Qed.

Lemma fetchRequestFromCwd_none excl ign w :
  find (manifest_exists config w) (registries E) = None ->
  fetchRequestFromCwd E config lf excl ign w =
    (Ok {| requests := []; patterns := []; manifest := empty_manifest;
           usedPatterns := []; ignorePatterns := [] |}, w).
Proof.
  intros Hnone. unfold fetchRequestFromCwd. unfold bind at 1.
  rewrite registryLoop_find, Hnone. reflexivity.
Qed.

Lemma fetchRequestFromCwd_found excl ign w r :
  find (manifest_exists config w) (registries E) = Some r ->
  let loc := path.join (cwd config) (snd r) in
  let json := normalizeManifest E (readJson config loc) in
  let shape := pattern_shape lf in
  let ex := excludeNamesOf E excl [] in
  exists req w',
    fetchRequestFromCwd E config lf excl ign w = (Ok req, w') /\
    patterns req = map shape (entries_of json ex ign (production config) (ignoreOptional (flags w))) /\
    map req_pattern (requests req) = patterns req /\
    usedPatterns req = map shape (used_entries json ex (production config) (ignoreOptional (flags w))) /\
    ignorePatterns req =
      map shape (ignored_entries json ex ign (production config) (ignoreOptional (flags w))) /\
    manifest req = json /\
    flags w' = (if truthy (m_flat json) then set_flat (flags w) true else flags w) /\
    files w' = files w /\
    resolver w' = resolver w /\
    resolutions w' = obj_assign (resolutions w) (default [] (m_resolutions json)) /\
    rootManifestRegistries w' = rootManifestRegistries w ++ [fst r] /\
    trace w' = trace w ++ [ReadJson loc].
Proof.
  intros Hfound loc json shape ex.
  destruct (readRootManifest_spec (fst r) loc ex ign w)
    as (a & w1 & Hread & Hp & Hd & Hu & Hi & Hfl & Hfi & Hre & Hres & Hreg & Htr).
  fold json in Hread, Hp, Hu, Hi, Hres. fold shape in Hp, Hu, Hi.
  unfold fetchRequestFromCwd. unfold bind at 1.
  rewrite registryLoop_find, Hfound. fold loc. fold ex. rewrite Hread.
  destruct (truthy (m_flat json)) eqn:Hflat;
    cbv [when bind modify ret]; world_simpl;
    eexists _, _; (split; [reflexivity |]); cbn [requests patterns manifest usedPatterns ignorePatterns];
    world_simpl; rewrite ?Hfl; repeat split; assumption.
Qed.

(** [fetchRequestFromCwd] always returns. *)
Lemma fetchRequestFromCwd_returns excl ign w :
  exists req w', fetchRequestFromCwd E config lf excl ign w = (Ok req, w').
Proof.
  destruct (find (manifest_exists config w) (registries E)) as [r |] eqn:Hfind.
  - destruct (fetchRequestFromCwd_found excl ign w r Hfind) as (req & w' & H & _). eauto.
  - rewrite (fetchRequestFromCwd_none excl ign w Hfind). eauto.
Qed.

Lemma in_not_excluded ex depMap e :
  In e (not_excluded ex depMap) <-> In e depMap /\ ~ In (fst e) ex.
Proof.
  unfold not_excluded. rewrite filter_In, negb_true_iff.
  split; intros [Hin Hex]; split; try assumption.
  - intros Hn. rewrite <- not_true_iff_false in Hex. apply Hex.
    apply existsb_exists. exists (fst e). split; [assumption | apply String.eqb_refl].
  - apply not_true_iff_false. intros Hx. apply Hex.
    apply existsb_exists in Hx. destruct Hx as (x & Hx & Heq).
    apply String.eqb_eq in Heq. subst x. assumption.
Qed.

Lemma in_processed json ex ign isUsed depType e :
  In e (processed json ex ign isUsed depType) ->
  In e (default [] (depMapOf json depType)) /\ ~ In (fst e) ex.
Proof.
  unfold processed. destruct (ign && negb isUsed); [intros [] |].
  apply in_not_excluded.
Qed.


Lemma split_head_plain (t : string) : has_at t = false -> split_head "@" t = t.
Proof.
  induction t as [| c t IH]; [reflexivity |]. cbn.
  destruct (Ascii.eqb c "@"); cbn; [discriminate |]. intros H. rewrite IH; [reflexivity | assumption].
Qed.

Lemma split_head_at (t r : string) :
  has_at t = false -> split_head "@" (t ++ String "@" r) = t.
Proof.
  induction t as [| c t IH]; [cbn; reflexivity |].
  change (String c t ++ String "@" r)%string with (String c (t ++ String "@" r)). cbn.
  destruct (Ascii.eqb c "@"); cbn; [discriminate |]. intros H. rewrite IH; [reflexivity | assumption].
Qed.

(** The pattern of an entry with a well-formed name starts with that name. *)
Lemma name_part_shape (e : string * string) :
  plain_name (fst e) = true -> name_part (pattern_shape lf e) = fst e.
Proof.
  unfold pattern_shape, plain_name. destruct e as [[| c t] range]; cbn [fst snd]; [discriminate |].
  intros H. apply negb_true_iff in H.
  destruct (getLocked lf (String c t) true); cbn.
  - rewrite split_head_plain; [reflexivity | assumption].
  - change (String c t ++ "@" ++ range)%string with (String c (t ++ String "@" range)).
    cbn [name_part]. rewrite split_head_at; [reflexivity | assumption].
Qed.

Lemma shape_clash json d1 d2 e1 e2 :
  plain_names json -> categories_disjoint json ->
  In e1 (default [] (depMapOf json d1)) -> In e2 (default [] (depMapOf json d2)) ->
  pattern_shape lf e1 = pattern_shape lf e2 -> d1 = d2.
Proof.
  intros Hplain Hdisj H1 H2 Heq.
  assert (Hn1 : In (fst e1) (declared json d1)) by (apply in_map; assumption).
  assert (Hn2 : In (fst e2) (declared json d2)) by (apply in_map; assumption).
  apply (Hdisj d1 d2 (fst e1)); [assumption |].
  rewrite <- (name_part_shape e1 (Hplain _ _ Hn1)), Heq, (name_part_shape e2 (Hplain _ _ Hn2)).
  assumption.
Qed.

(** C3, amended. The patterns of [usedPatterns] and [ignorePatterns]
    together are exactly those of [patterns], each as often as there; no
    pattern is in both when no name is declared in two categories of the
    manifest and every declared name is not empty and has no [@] after its
    first character. *)
Theorem fetchRequestFromCwd_partition excl ign w :
  exists req w',
    fetchRequestFromCwd E config lf excl ign w = (Ok req, w') /\
    usedPatterns req ++ ignorePatterns req ≡ₚ patterns req /\
    (plain_names (manifest req) -> categories_disjoint (manifest req) ->
     forall p, In p (usedPatterns req) -> ~ In p (ignorePatterns req)).
Proof.
  destruct (find (manifest_exists config w) (registries E)) as [r |] eqn:Hfind.
  - destruct (fetchRequestFromCwd_found excl ign w r Hfind)
      as (req & w' & Hrun & Hp & _ & Hu & Hi & Hm & _).
    exists req, w'. split; [assumption |].
    rewrite Hp, Hu, Hi, <- Hm. clear Hp Hu Hi Hrun.
    set (json := manifest req). set (ex := excludeNamesOf E excl []).
    unfold entries_of, used_entries, ignored_entries.
    split.
    + rewrite <- map_app. apply Permutation_map.
      unfold processed.
      destruct (production config), (ignoreOptional (flags w)); cbn [negb andb];
        rewrite ?andb_false_r, ?app_nil_r, <- ?app_assoc; cbn [app];
        try reflexivity; solve_Permutation.
    + intros Hplain Hdisj p Hused Hign.
      apply in_map_iff in Hused. destruct Hused as (e1 & He1 & Hin1).
      apply in_map_iff in Hign. destruct Hign as (e2 & He2 & Hin2).
      assert (Hclash : forall d1 d2,
                In e1 (default [] (depMapOf json d1)) -> In e2 (default [] (depMapOf json d2)) ->
                d1 = d2)
        by (intros d1 d2 H1 H2; apply (shape_clash json d1 d2 e1 e2);
            first [assumption | congruence]).
      destruct (production config), (ignoreOptional (flags w));
        repeat match goal with
               | H : In _ (_ ++ _) |- _ => apply in_app_iff in H
               | H : _ \/ _ |- _ => destruct H
               | H : In _ [] |- _ => destruct H
               | H : In _ (not_excluded _ _) |- _ => apply in_not_excluded in H; destruct H as [H _]
               | H : In _ (processed _ _ _ _ _) |- _ => apply in_processed in H; destruct H as [H _]
               end;
        match goal with
        | H1 : In e1 (default [] (depMapOf json ?d1)),
          H2 : In e2 (default [] (depMapOf json ?d2)) |- _ =>
            discriminate (Hclash d1 d2 H1 H2)
        end.
  - rewrite (fetchRequestFromCwd_none excl ign w Hfind).
    eexists _, _. split; [reflexivity |]. cbn. split; [reflexivity |]. intros _ _ p [].
Qed.

End Collect.

(** C3. In production mode a dependency declared with the same range in
    [dependencies] and in [devDependencies] is both a used and an ignored
    pattern; so is the pattern shared by the entries [a: b@1] and
    [a@b: 1]. *)
Lemma fetchRequestFromCwd_partition_counterexample :
  (exists req w',
     fetchRequestFromCwd Sample.engines (Sample.config true Sample.twice) (Sample.lockfile_with [])
       [] false (Sample.world Sample.no_flags Sample.disk) = (Ok req, w') /\
     In "a@^1.0.0" (usedPatterns req) /\ In "a@^1.0.0" (ignorePatterns req)) /\
  (exists req w',
     fetchRequestFromCwd Sample.engines (Sample.config true Sample.clash) (Sample.lockfile_with [])
       [] false (Sample.world Sample.no_flags Sample.disk) = (Ok req, w') /\
     In "a@b@1" (usedPatterns req) /\ In "a@b@1" (ignorePatterns req)).
Proof.
  split; eexists _, _; (split; [vm_compute; reflexivity |]); cbn; auto.
Qed.

Lemma fetchRequestFromCwd_partition_witness :
  exists req w',
    fetchRequestFromCwd Sample.engines (Sample.config true Sample.tidy) (Sample.lockfile_with ["b"])
      [] false (Sample.world Sample.no_flags Sample.disk) = (Ok req, w') /\
    usedPatterns req ++ ignorePatterns req ≡ₚ patterns req /\
    forall p, In p (usedPatterns req) -> ~ In p (ignorePatterns req).
Proof.
  destruct (fetchRequestFromCwd_partition Sample.engines (Sample.config true Sample.tidy)
              (Sample.lockfile_with ["b"]) [] false (Sample.world Sample.no_flags Sample.disk))
    as (req & w' & Hrun & Hperm & Hdisj).
  exists req, w'. split; [exact Hrun |]. split; [exact Hperm |].
  vm_compute in Hrun. injection Hrun as Hreq Hw. subst req.
  apply Hdisj.
  - intros d n Hn. destruct d; cbn in Hn; intuition (subst; reflexivity).
  - intros d1 d2 n H1 H2. destruct d1, d2; cbn in H1, H2; intuition (subst; try discriminate; reflexivity).
Defined.

Lemma find_first {A : Type} (f : A -> bool) (pre post : list A) (r : A) :
  (forall q, In q pre -> f q = false) -> f r = true -> find f (pre ++ r :: post) = Some r.
Proof.
  intros Hpre Hr. induction pre as [| q pre IH]; cbn.
  - rewrite Hr. reflexivity.
  - rewrite (Hpre q (or_introl eq_refl)). apply IH. intros q' Hq'. apply Hpre. right. assumption.
Qed.

Lemma excludeNamesOf_set_registries (E : Engines) (regs : list (string * string))
    (excl acc : list string) :
  excludeNamesOf (set_registries E regs) excl acc = excludeNamesOf E excl acc.
Proof.
  revert acc. induction excl as [| pattern rest IH]; intros acc; [reflexivity |].
  cbn. destruct (getExoticResolver E pattern); apply IH.
Qed.

(** C4. When the manifests of the registries enumerated before [r] do not
    exist and the one of [r] does, [fetchRequestFromCwd] does exactly what
    it does when [r] is the only registry, whatever manifests the registries
    after [r] have: the returned manifest is the one of [r], [r] is the one
    registry recorded, and its manifest is the one file read. *)
Theorem fetchRequestFromCwd_first_registry_wins (E : Engines) (config : Config) (lf : Lockfile)
    (excl : list string) (ign : bool) (w : World)
    (pre post : list (string * string)) (r : string * string) :
  registries E = pre ++ r :: post ->
  (forall q, In q pre -> manifest_exists config w q = false) ->
  manifest_exists config w r = true ->
  fetchRequestFromCwd E config lf excl ign w =
    fetchRequestFromCwd (set_registries E [r]) config lf excl ign w /\
  exists req w',
    fetchRequestFromCwd E config lf excl ign w = (Ok req, w') /\
    manifest req = normalizeManifest E (readJson config (path.join (cwd config) (snd r))) /\
    rootManifestRegistries w' = rootManifestRegistries w ++ [fst r] /\
    trace w' = trace w ++ [ReadJson (path.join (cwd config) (snd r))].
Proof.
  intros Hregs Hpre Hr.
  assert (Hfind : find (manifest_exists config w) (registries E) = Some r)
    by (rewrite Hregs; apply find_first; assumption).
  split.
  - unfold fetchRequestFromCwd, bind.
    rewrite !registryLoop_find, Hfind, excludeNamesOf_set_registries.
    cbn [registries set_registries find]. rewrite Hr. reflexivity.
  - destruct (fetchRequestFromCwd_found E config lf excl ign w r Hfind)
      as (req & w' & Hrun & _ & _ & _ & _ & Hm & _ & _ & _ & _ & Hreg & Htr).
    exists req, w'. auto.
Qed.

(** Both [package.json] and [yarn.json] exist: only [package.json] counts. *)
Lemma fetchRequestFromCwd_first_registry_wins_witness :
  let E := Sample.engines in
  let config := Sample.config false Sample.tidy in
  let w := Sample.world Sample.no_flags Sample.disk in
  fetchRequestFromCwd E config (Sample.lockfile_with []) [] false w =
    fetchRequestFromCwd (set_registries E [("npm", "package.json")]) config
      (Sample.lockfile_with []) [] false w /\
  exists req w',
    fetchRequestFromCwd E config (Sample.lockfile_with []) [] false w = (Ok req, w') /\
    manifest req = Sample.tidy /\
    rootManifestRegistries w' = ["npm"] /\
    trace w' = [ReadJson "/proj/package.json"].
Proof.
  intros E config w.
  apply (fetchRequestFromCwd_first_registry_wins E config (Sample.lockfile_with []) [] false w
           [] [("yarn", "yarn.json")] ("npm", "package.json")).
  - reflexivity.
  - intros q [].
  - reflexivity.
Defined.


(** ** Pruning the offline mirror *)

Lemma nonempty_Some (x : option string) (s : string) :
  nonempty x = Some s <-> x = Some s /\ s <> "".
Proof.
  unfold nonempty. destruct x as [t |]; [| split; [discriminate | intros [H _]; discriminate]].
  destruct (String.eqb_spec t ""); split.
  - discriminate.
  - intros [H Hs]. congruence.
  - intros H. injection H as <-. auto.
  - intros [H _]. assumption.
Qed.

Lemma requiredTarballsOf_spec (lock : list (string * LockManifest)) :
  forall (acc : gset string) (b : string),
    b ∈ requiredTarballsOf lock acc <-> b ∈ acc \/ required lock b.
Proof.
  induction lock as [| [dependency entry] rest IH]; intros acc b.
  - cbn. split; [auto | intros [H | (d & e & r & [] & _)]; assumption].
  - cbn [requiredTarballsOf]. destruct (nonempty (resolved entry)) as [res |] eqn:Hres.
    + apply nonempty_Some in Hres. destruct Hres as [Hres Hne].
      rewrite IH, elem_of_union, elem_of_singleton. split.
      * intros [[Hb | Hb] | (d & e & r & Hin & Hr)]; [right | left; assumption | right].
        -- exists dependency, entry, res. cbn. auto.
        -- exists d, e, r. cbn. tauto.
      * intros [Hb | (d & e & r & [Heq | Hin] & Hr & Hn & Hb)]; [auto | |].
        -- injection Heq as <- <-. left. left. congruence.
        -- right. exists d, e, r. auto.
    + rewrite IH. split.
      * intros [Hb | (d & e & r & Hin & Hr)]; [auto | right]. exists d, e, r. cbn. tauto.
      * intros [Hb | (d & e & r & [Heq | Hin] & Hr & Hn & Hb)]; [auto | |].
        -- injection Heq as <- <-. exfalso.
           assert (Hs : nonempty (resolved entry) = Some r) by (apply nonempty_Some; auto).
           congruence.
        -- right. exists d, e, r. auto.
Qed.

Lemma filter_filter_andb {A : Type} (f g : A -> bool) (l : list A) :
  List.filter f (List.filter g l) = List.filter (fun x => g x && f x) l.
Proof.
  induction l as [| x l IH]; [reflexivity |]. cbn.
  destruct (g x); cbn; [destruct (f x) |]; rewrite IH; reflexivity.
Qed.

(** What the loop over the tarballs of the mirror leaves on the disk. *)
Lemma prune_loop (R : gset string) (ts : list WalkFile) :
  forall w,
    exists w',
      for_of ts (fun tarball =>
        when (negb (bool_decide (basename tarball ∈ R))) (fs.unlink (absolute tarball))) w
      = (Ok tt, w') /\
      files w' =
        List.filter
          (fun f => negb (existsb (fun t => String.eqb (absolute t) (fst f)
                                            && negb (bool_decide (basename t ∈ R))) ts))
          (files w).
Proof.
  induction ts as [| t ts IH]; intros w.
  - exists w. split; [reflexivity |]. cbn.
    induction (files w) as [| f l IHl]; [reflexivity |]. cbn. rewrite <- IHl. reflexivity.
  - cbn [for_of]. unfold bind at 1.
    destruct (bool_decide (basename t ∈ R)) eqn:Hin; cbn [negb when].
    + cbn [ret]. destruct (IH w) as (w' & Hrun & Hfiles). exists w'. split; [assumption |].
      rewrite Hfiles. apply List.filter_ext. intros f. cbn [existsb]. rewrite Hin.
      cbn [negb]. rewrite andb_false_r. reflexivity.
    + cbv [fs.unlink bind emit modify]. world_simpl.
      match goal with |- context [for_of ts _ ?w1] => destruct (IH w1) as (w' & Hrun & Hfiles) end.
      exists w'. split; [assumption |]. rewrite Hfiles. world_simpl.
      rewrite filter_filter_andb. apply List.filter_ext. intros f. cbn [existsb]. rewrite Hin.
      cbn [negb]. rewrite andb_true_r, negb_orb, (String.eqb_sym (fst f)). reflexivity.
Qed.

(** C7. With an offline mirror configured, [pruneOfflineMirror] returns, and
    a file is on the disk afterwards exactly when it was there before and,
    if it lies under the mirror, its basename is the basename of the
    [resolved] field, cut at [#], of an entry of the lockfile.  So every
    file left under the mirror has a required basename, and every file of
    the mirror whose basename is not required is deleted. *)
Theorem pruneOfflineMirror_sound (config : Config) (lock : list (string * LockManifest))
    (mirror : string) (w : World) :
  getOfflineMirrorPath config = Some mirror -> mirror <> "" ->
  exists w',
    pruneOfflineMirror config lock w = (Ok tt, w') /\
    forall f,
      In f (files w') <->
      In f (files w) /\ (fs.below mirror (fst f) = true -> required lock (path.basename (fst f))).
Proof.
  intros Hmirror Hne.
  assert (Hnon : nonempty (getOfflineMirrorPath config) = Some mirror)
    by (apply nonempty_Some; auto).
  unfold pruneOfflineMirror. rewrite Hnon. unfold bind at 1, fs.walk at 1.
  set (R := requiredTarballsOf lock ∅).
  set (ts := map (fs.walk_file mirror) (List.filter (fun f => fs.below mirror (fst f)) (files w))).
  destruct (prune_loop R ts w) as (w' & Hrun & Hfiles).
  exists w'. split; [assumption |].
  assert (HR : forall b, bool_decide (b ∈ R) = true <-> required lock b).
  { intros b. rewrite bool_decide_eq_true. unfold R. rewrite requiredTarballsOf_spec.
    split; [intros [H | H]; [set_solver | assumption] | auto]. }
  intros f. rewrite Hfiles, filter_In, negb_true_iff.
  split; intros [Hin Hkeep]; (split; [assumption |]).
  - intros Hbelow. apply HR.
    destruct (bool_decide (path.basename (fst f) ∈ R)) eqn:Hb; [reflexivity | exfalso].
    rewrite <- not_true_iff_false in Hkeep. apply Hkeep.
    apply existsb_exists. exists (fs.walk_file mirror f). split.
    + unfold ts. apply in_map, filter_In. auto.
    + cbn [fs.walk_file absolute basename]. rewrite String.eqb_refl, Hb. reflexivity.
  - apply not_true_iff_false. intros Hex. apply existsb_exists in Hex.
    destruct Hex as (t & Ht & Hbad). apply andb_true_iff in Hbad. destruct Hbad as [Habs Hreq].
    unfold ts in Ht. apply in_map_iff in Ht. destruct Ht as (g & <- & Hg).
    apply filter_In in Hg. destruct Hg as [_ Hbelow].
    cbn [fs.walk_file absolute basename] in Habs, Hreq.
    apply String.eqb_eq in Habs. rewrite Habs in Hbelow, Hreq.
    apply negb_true_iff in Hreq. apply HR in Hkeep; [congruence | assumption].
Qed.

(** The mirror of scenario S6: [z-old.tgz] goes, the rest stays. *)
Lemma pruneOfflineMirror_sound_witness :
  exists w',
    pruneOfflineMirror Sample.mirror_config Sample.two_tarballs
      (Sample.world Sample.no_flags Sample.mirror_disk) = (Ok tt, w') /\
    files w' = [("/mirror/x-1.tgz", "x"); ("/mirror/y-2.tgz", "y"); ("/proj/package.json", "{}")] /\
    forall f,
      In f (files w') <->
      In f Sample.mirror_disk /\
      (fs.below "/mirror" (fst f) = true -> required Sample.two_tarballs (path.basename (fst f))).
Proof.
  destruct (pruneOfflineMirror_sound Sample.mirror_config Sample.two_tarballs "/mirror"
              (Sample.world Sample.no_flags Sample.mirror_disk) eq_refl)
    as (w' & Hrun & Hiff); [discriminate |].
  exists w'. split; [exact Hrun |]. split; [| exact Hiff].
  vm_compute in Hrun. injection Hrun as <-. reflexivity.
Defined.

(** ** What a computation leaves alone *)

Lemma extends_by_refl (P : Event -> Prop) (w : World) : extends_by P w w.
Proof. exists []. rewrite app_nil_r. auto. Qed.

Lemma extends_by_trans (P : Event -> Prop) (w1 w2 w3 : World) :
  extends_by P w1 w2 -> extends_by P w2 w3 -> extends_by P w1 w3.
Proof.
  intros (e1 & H1 & F1) (e2 & H2 & F2). exists (e1 ++ e2).
  rewrite H2, H1, app_assoc. split; [reflexivity | apply Forall_app; split; assumption].
Qed.

Section Quiet.

Variable P : Event -> Prop.

Lemma quiet_ret {A : Type} (a : A) : quiet P (ret a).
Proof. intros w. split; [reflexivity | apply extends_by_refl]. Qed.

Lemma quiet_throw {A : Type} (e : Error) : quiet P (@throw A e).
Proof. intros w. split; [reflexivity | apply extends_by_refl]. Qed.

Lemma quiet_get : quiet P get.
Proof. intros w. split; [reflexivity | apply extends_by_refl]. Qed.

Lemma quiet_bind {A B : Type} (c : M A) (k : A -> M B) :
  quiet P c -> (forall a, quiet P (k a)) -> quiet P (bind c k).
Proof.
  intros Hc Hk w. unfold bind. specialize (Hc w).
  destruct (c w) as [[a | e] w1]; cbn [snd] in *; [| assumption].
  destruct Hc as [Hf Ht]. destruct (Hk a w1) as [Hf' Ht'].
  split; [congruence | eapply extends_by_trans; eassumption].
Qed.

Lemma quiet_emit (e : Event) : P e -> quiet P (emit e).
Proof.
  intros He w. split; [reflexivity |]. exists [e]. split; [reflexivity | auto].
Qed.

Lemma quiet_modify (f : World -> World) :
  (forall w, flags (f w) = flags w /\ trace (f w) = trace w) -> quiet P (modify f).
Proof.
  intros Hf w. destruct (Hf w) as [H1 H2]. split; [assumption |].
  exists []. cbn. rewrite app_nil_r. auto.
Qed.

Lemma quiet_when (b : bool) (c : M unit) : quiet P c -> quiet P (when b c).
Proof. intros Hc. destruct b; [assumption | apply quiet_ret]. Qed.

Lemma quiet_invariant {A : Type} (x : option A) (msg : string) : quiet P (invariant x msg).
Proof. destruct x; [apply quiet_ret | apply quiet_throw]. Qed.

Lemma quiet_for_of {A : Type} (xs : list A) (body : A -> M unit) :
  (forall x, quiet P (body x)) -> quiet P (for_of xs body).
Proof.
  intros Hbody. induction xs as [| x xs IH]; [apply quiet_ret |].
  cbn. apply quiet_bind; [apply Hbody | intros _; assumption].
Qed.

Lemma quiet_exists (loc : string) : quiet P (fs.exists_ loc).
Proof. intros w. split; [reflexivity | apply extends_by_refl]. Qed.

Lemma quiet_walk (dir : string) : quiet P (fs.walk dir).
Proof. intros w. split; [reflexivity | apply extends_by_refl]. Qed.

Lemma quiet_unlink (loc : string) : P (Unlink loc) -> quiet P (fs.unlink loc).
Proof.
  intros HP. apply quiet_bind; [apply quiet_emit; assumption |].
  intros _. apply quiet_modify. intros w. split; reflexivity.
Qed.

End Quiet.

Create HintDb quiet.
#[export] Hint Resolve quiet_ret quiet_throw quiet_get quiet_emit quiet_when quiet_invariant
  quiet_exists quiet_walk quiet_unlink : quiet.

(** Steps through a computation built from [bind], closing the leaves from
    the hint database. *)
Ltac quiet_step :=
  first
    [ apply quiet_bind; [| intros ?]
    | apply quiet_for_of; intros ?
    | apply quiet_when
    | apply quiet_modify; intros ?; split; reflexivity
    | solve [eauto with quiet] ].

Lemma quiet_pruneOfflineMirror (config : Config) (lock : list (string * LockManifest)) :
  quiet (fun e => exists loc, e = Unlink loc) (pruneOfflineMirror config lock).
Proof.
  unfold pruneOfflineMirror. destruct (nonempty (getOfflineMirrorPath config)); [| apply quiet_ret].
  repeat quiet_step.
Qed.

Lemma pruneOfflineMirror_returns (config : Config) (lock : list (string * LockManifest)) (w : World) :
  exists w', pruneOfflineMirror config lock w = (Ok tt, w').
Proof.
  unfold pruneOfflineMirror. destruct (nonempty (getOfflineMirrorPath config)) as [mirror |]; [| eexists; reflexivity].
  unfold bind at 1, fs.walk at 1.
  match goal with |- context [for_of ?ts _ w] =>
    destruct (prune_loop (requiredTarballsOf lock ∅) ts w) as (w' & Hrun & _) end.
  eauto.
Qed.


(** ** Saving the lockfile *)






Lemma prune_before_save (config : Config) (candidate : list (string * LockManifest)) (w : World) :
  exists w1 evs1,
    when (cfg_pruneOfflineMirror config) (pruneOfflineMirror config candidate) w = (Ok tt, w1) /\
    flags w1 = flags w /\
    trace w1 = trace w ++ evs1 /\
    Forall (fun e => exists l, e = Unlink l) evs1.
Proof.
  destruct (cfg_pruneOfflineMirror config); cbn [when].
  - destruct (pruneOfflineMirror_returns config candidate w) as (w1 & Hrun).
    destruct (quiet_pruneOfflineMirror config candidate w) as (Hfl & evs1 & Htr & Hev).
    rewrite Hrun in Hfl, Htr. cbn [snd] in Hfl, Htr. eauto 7.
  - exists w, []. rewrite app_nil_r. auto.
Qed.





(** ** The frozen lockfile *)

Section Frozen.

Variable E : Engines.
Variable config : Config.
Variable lf : Lockfile.








Lemma bind_run {A B : Type} (c : M A) (k : A -> M B) (w w1 : World) (a : A) :
  c w = (Ok a, w1) -> bind c k w = k a w1.
Proof. intros H. unfold bind. rewrite H. reflexivity. Qed.


Lemma extends_by_events (P : Event -> Prop) (w w' : World) (evs : list Event) :
  trace w' = trace w ++ evs -> Forall P evs -> extends_by P w w'.
Proof. intros H F. exists evs. auto. Qed.



(** Collecting the requests touches no flag but [flat]. *)
Lemma fetchRequestFromCwd_flags excl ign w req w2 :
  fetchRequestFromCwd E config lf excl ign w = (Ok req, w2) ->
  frozenLockfile (flags w2) = frozenLockfile (flags w) /\
  skipIntegrityCheck (flags w2) = skipIntegrityCheck (flags w) /\
  force (flags w2) = force (flags w) /\
  har (flags w2) = har (flags w).
Proof.
  intros Hrun.
  destruct (find (manifest_exists config w) (registries E)) as [r |] eqn:Hfind.
  - destruct (fetchRequestFromCwd_found E config lf excl ign w r Hfind)
      as (req' & w' & Hrun' & _ & _ & _ & _ & _ & Hfl & _).
    rewrite Hrun in Hrun'. injection Hrun' as <- <-. rewrite Hfl.
    destruct (truthy _); repeat split.
  - rewrite (fetchRequestFromCwd_none E config lf excl ign w Hfind) in Hrun.
    injection Hrun as <- <-. repeat split.
Qed.

(** The requests collected depend on the disk and on the flags only. *)
Lemma fetchRequestFromCwd_stable excl ign w w1 req w2 :
  files w1 = files w -> flags w1 = flags w ->
  fetchRequestFromCwd E config lf excl ign w = (Ok req, w2) ->
  exists req1 w3,
    fetchRequestFromCwd E config lf excl ign w1 = (Ok req1, w3) /\
    usedPatterns req1 = usedPatterns req /\
    flags w3 = flags w2 /\
    files w3 = files w /\
    extends_by early w1 w3.
Proof.
  intros Hfiles Hflags Hrun.
  assert (Hfind1 : find (manifest_exists config w1) (registries E)
                   = find (manifest_exists config w) (registries E))
    by (unfold manifest_exists; rewrite Hfiles; reflexivity).
  destruct (find (manifest_exists config w) (registries E)) as [r |] eqn:Hfind.
  - destruct (fetchRequestFromCwd_found E config lf excl ign w r Hfind)
      as (req' & w' & Hrun' & _ & _ & Hu & _ & _ & Hfl & Hfi & _).
    rewrite Hrun in Hrun'. injection Hrun' as <- <-.
    destruct (fetchRequestFromCwd_found E config lf excl ign w1 r Hfind1)
      as (req1 & w3 & Hrun1 & _ & _ & Hu1 & _ & _ & Hfl1 & Hfi1 & _ & _ & _ & Htr1).
    exists req1, w3. split; [assumption |].
    split; [rewrite Hu1, Hu, Hflags; reflexivity |].
    split; [rewrite Hfl1, Hfl, Hflags; reflexivity |].
    split; [congruence |].
    eapply extends_by_events; [exact Htr1 | repeat constructor].
  - rewrite (fetchRequestFromCwd_none E config lf excl ign w Hfind) in Hrun.
    injection Hrun as <- <-.
    rewrite (fetchRequestFromCwd_none E config lf excl ign w1 Hfind1).
    exists {| requests := []; patterns := []; manifest := empty_manifest;
              usedPatterns := []; ignorePatterns := [] |}, w1.
    repeat split; [assumption | assumption | apply extends_by_refl].
Qed.


End Frozen.




(** ** Hydrate *)

(** C2. In flat mode [hydrate] goes through [flatten], which asks for the
    version of [b], records the answer in the root manifest object and
    saves the root manifests: [package.json] is rewritten with a
    [resolutions] field it did not have. *)
Theorem hydrate_saves_root_manifests :
  let w := Sample.world Sample.no_flags Sample.disk in
  let config := Sample.config false Sample.flat_manifest in
  exists req w',
    hydrate Sample.flat_engines config (Sample.lockfile_with []) false false w = (Ok req, w') /\
    rm_object <$> obj_get (getRootManifests config) "npm" = Some Sample.flat_manifest /\
    m_resolutions Sample.flat_manifest = None /\
    last (trace w') = Some (SaveRootManifests Sample.flat_manifest_saved).
Proof.
  cbv zeta. eexists _, _. split; [vm_compute; reflexivity |].
  repeat split.
Qed.


(** * Further properties *)

(** ** Flag normalisation, continued *)

(** The flags no config option touches. *)
Lemma normalizeFlags_plain (getOpt : string -> JsVal) (rawFlags : gmap string JsVal) :
  let f := normalizeFlags getOpt rawFlags in
  har f = truthy (prop rawFlags "har") /\
  flat f = truthy (prop rawFlags "flat") /\
  lockfile f = strict_ne_false (prop rawFlags "lockfile") /\
  pureLockfile f = truthy (prop rawFlags "pureLockfile") /\
  skipIntegrityCheck f = truthy (prop rawFlags "skipIntegrityCheck") /\
  frozenLockfile f = truthy (prop rawFlags "frozenLockfile") /\
  linkDuplicates f = truthy (prop rawFlags "linkDuplicates") /\
  checkFiles f = truthy (prop rawFlags "checkFiles") /\
  peer f = truthy (prop rawFlags "peer") /\
  dev f = truthy (prop rawFlags "dev") /\
  optional f = truthy (prop rawFlags "optional") /\
  exact f = truthy (prop rawFlags "exact") /\
  tilde f = truthy (prop rawFlags "tilde").
Proof.
  cbv zeta. unfold normalizeFlags.
  destruct (truthy (getOpt "ignore-scripts")), (truthy (getOpt "ignore-platform")),
    (truthy (getOpt "ignore-engines")), (truthy (getOpt "ignore-optional")),
    (truthy (getOpt "force")); cbn; repeat split.
Qed.

(** X1. Only the five forcing flags depend on the config: two configs
    give the same value to every other flag; and a forcing flag whose
    config option is falsy is the truthiness of the raw flag. *)
Theorem normalizeFlags_config_scope (getOpt1 getOpt2 : string -> JsVal)
    (rawFlags : gmap string JsVal) :
  let f1 := normalizeFlags getOpt1 rawFlags in
  let f2 := normalizeFlags getOpt2 rawFlags in
  (har f1 = har f2 /\ flat f1 = flat f2 /\ lockfile f1 = lockfile f2 /\
   pureLockfile f1 = pureLockfile f2 /\ skipIntegrityCheck f1 = skipIntegrityCheck f2 /\
   frozenLockfile f1 = frozenLockfile f2 /\ linkDuplicates f1 = linkDuplicates f2 /\
   checkFiles f1 = checkFiles f2 /\ peer f1 = peer f2 /\ dev f1 = dev f2 /\
   optional f1 = optional f2 /\ exact f1 = exact f2 /\ tilde f1 = tilde f2) /\
  (truthy (getOpt1 "ignore-scripts") = false ->
   ignoreScripts f1 = truthy (prop rawFlags "ignoreScripts")) /\
  (truthy (getOpt1 "ignore-platform") = false ->
   ignorePlatform f1 = truthy (prop rawFlags "ignorePlatform")) /\
  (truthy (getOpt1 "ignore-engines") = false ->
   ignoreEngines f1 = truthy (prop rawFlags "ignoreEngines")) /\
  (truthy (getOpt1 "ignore-optional") = false ->
   ignoreOptional f1 = truthy (prop rawFlags "ignoreOptional")) /\
  (truthy (getOpt1 "force") = false -> force f1 = truthy (prop rawFlags "force")).
Proof.
  cbv zeta. split.
  - destruct (normalizeFlags_plain getOpt1 rawFlags)
      as (-> & -> & -> & -> & -> & -> & -> & -> & -> & -> & -> & -> & ->).
    destruct (normalizeFlags_plain getOpt2 rawFlags)
      as (-> & -> & -> & -> & -> & -> & -> & -> & -> & -> & -> & -> & ->).
    repeat split.
  - unfold normalizeFlags.
    destruct (truthy (getOpt1 "ignore-scripts")), (truthy (getOpt1 "ignore-platform")),
      (truthy (getOpt1 "ignore-engines")), (truthy (getOpt1 "ignore-optional")),
      (truthy (getOpt1 "force")); cbn;
      repeat split; intros; try reflexivity; discriminate.
Qed.

Lemma normalizeFlags_config_scope_witness :
  let getOpt := fun k : string => if String.eqb k "force" then JsBool true else JsUndefined in
  let rawFlags : gmap string JsVal := {[ "ignoreScripts" := JsStr "1"; "flat" := JsBool true ]} in
  flat (normalizeFlags getOpt rawFlags) = flat (normalizeFlags (fun _ => JsUndefined) rawFlags) /\
  ignoreScripts (normalizeFlags getOpt rawFlags) = true.
Proof.
  intros getOpt rawFlags.
  destruct (normalizeFlags_config_scope getOpt (fun _ => JsUndefined) rawFlags)
    as ((_ & Hflat & _) & Hscripts & _).
  split; [exact Hflat |]. rewrite Hscripts; reflexivity.
Defined.

(** X2. The [lockfile] flag is off for the raw value [false] and for no
    other: an absent flag, [null], [0] or the empty string leave it on. *)
Theorem normalizeFlags_lockfile_default (getOpt : string -> JsVal) (rawFlags : gmap string JsVal) :
  lockfile (normalizeFlags getOpt rawFlags) = false <-> rawFlags !! "lockfile" = Some (JsBool false).
Proof.
  destruct (normalizeFlags_plain getOpt rawFlags) as (_ & _ & -> & _).
  unfold prop. destruct (rawFlags !! "lockfile") as [[| |[]| | |] |]; cbn; split; congruence.
Qed.

(** ** Request collection, continued *)

Section CollectMore.

Variable E : Engines.
Variable config : Config.
Variable lf : Lockfile.


Lemma pushDepsLoop_origins registry ex depType hint opt isUsed depMap :
  forall a m,
    snd (pushDepsLoop lf registry ex depType hint opt isUsed depMap (a, m)) =
      record_origins lf depType (not_excluded ex depMap) m.
Proof.
  induction depMap as [| [name range] rest IH]; intros a m; [reflexivity |].
  cbn [pushDepsLoop not_excluded List.filter fst snd].
  destruct (existsb (String.eqb name) ex); cbn [negb]; [apply IH |].
  rewrite IH. cbn [fst snd]. unfold record_origins. cbn [fold_left].
  pose proof (patternOf_shape lf (name, range)) as Hp. cbn [fst snd] in Hp. rewrite Hp.
  reflexivity.
Qed.

Lemma pushDeps_origins json registry ex ign depType hint opt isUsed a m :
  snd (pushDeps lf json registry ex ign depType hint opt isUsed (a, m)) =
    record_origins lf depType (processed json ex ign isUsed depType) m.
Proof.
  unfold pushDeps, processed. destruct (ign && negb isUsed); [reflexivity |].
  apply pushDepsLoop_origins.
Qed.

Lemma record_origins_lookup depType entries :
  forall (m : gmap string DepType) (p : string),
    (In p (map (pattern_shape lf) entries) ->
     record_origins lf depType entries m !! p = Some depType) /\
    (~ In p (map (pattern_shape lf) entries) ->
     record_origins lf depType entries m !! p = m !! p).
Proof.
  induction entries as [| e rest IH]; intros m p.
  - split; [intros [] | reflexivity].
  - change (record_origins lf depType (e :: rest) m)
      with (record_origins lf depType rest (<[pattern_shape lf e := depType]> m)).
    destruct (IH (<[pattern_shape lf e := depType]> m) p) as [IHin IHout].
    cbn [map]. split.
    + intros Hin.
      destruct (in_dec String.string_dec p (map (pattern_shape lf) rest)) as [Hr | Hr];
        [apply IHin; assumption |].
      destruct Hin as [Heq | Hin]; [| contradiction].
      rewrite IHout by assumption. rewrite Heq. apply lookup_insert_eq.
    + intros Hout. rewrite IHout by (intros H; apply Hout; right; assumption).
      apply lookup_insert_ne. intros Heq. apply Hout. left. assumption.
Qed.

(** The requests and the origins left by the processing of a root manifest. *)
Lemma readRootManifest_full registry loc ex ign w :
  let json := normalizeManifest E (readJson config loc) in
  let empty := {| a_patterns := []; a_deps := []; a_ignorePatterns := []; a_usedPatterns := [] |} in
  let E1 := processed json ex ign true dependencies in
  let E2 := processed json ex ign (negb (production config)) devDependencies in
  let E3 := processed json ex ign (negb (ignoreOptional (flags w))) optionalDependencies in
  exists a w',
    readRootManifest E config lf registry loc ex ign empty w = (Ok (a, json), w') /\
    a_deps a =
      map (request_of lf registry None false) E1
      ++ map (request_of lf registry (Some "dev") false) E2
      ++ map (request_of lf registry (Some "optional") true) E3 /\
    rootPatternsToOrigin w' =
      record_origins lf optionalDependencies E3
        (record_origins lf devDependencies E2
           (record_origins lf dependencies E1 (rootPatternsToOrigin w))).
Proof.
  intros json empty E1 E2 E3.
  cbv [readRootManifest bind modify emit get ret]. world_simpl.
  fold json.
  set (m0 := rootPatternsToOrigin w).
  destruct (pushDeps lf json registry ex ign dependencies None false true (empty, m0))
    as [a1 m1] eqn:H1.
  pose proof (pushDeps_arrays lf json registry ex ign dependencies None false true empty m0) as P1.
  pose proof (pushDeps_origins json registry ex ign dependencies None false true empty m0) as O1.
  rewrite H1 in P1, O1. cbn [fst snd] in P1, O1.
  destruct (pushDeps lf json registry ex ign devDependencies (Some "dev") false
              (negb (production config)) (a1, m1)) as [a2 m2] eqn:H2.
  pose proof (pushDeps_arrays lf json registry ex ign devDependencies (Some "dev") false
                (negb (production config)) a1 m1) as P2.
  pose proof (pushDeps_origins json registry ex ign devDependencies (Some "dev") false
                (negb (production config)) a1 m1) as O2.
  rewrite H2 in P2, O2. cbn [fst snd] in P2, O2.
  destruct (pushDeps lf json registry ex ign optionalDependencies (Some "optional") true
              (negb (ignoreOptional (flags w))) (a2, m2)) as [a3 m3] eqn:H3.
  pose proof (pushDeps_arrays lf json registry ex ign optionalDependencies (Some "optional") true
                (negb (ignoreOptional (flags w))) a2 m2) as P3.
  pose proof (pushDeps_origins json registry ex ign optionalDependencies (Some "optional") true
                (negb (ignoreOptional (flags w))) a2 m2) as O3.
  rewrite H3 in P3, O3. cbn [fst snd] in P3, O3.
  eexists _, _. split; [reflexivity |]. world_simpl.
  subst a3 a2 a1 m3 m2 m1. cbn [a_deps]. split; [| reflexivity].
  rewrite <- !app_assoc. reflexivity.
Qed.

Lemma fetchRequestFromCwd_full excl ign w r :
  find (manifest_exists config w) (registries E) = Some r ->
  let json := normalizeManifest E (readJson config (path.join (cwd config) (snd r))) in
  let ex := excludeNamesOf E excl [] in
  let E1 := processed json ex ign true dependencies in
  let E2 := processed json ex ign (negb (production config)) devDependencies in
  let E3 := processed json ex ign (negb (ignoreOptional (flags w))) optionalDependencies in
  exists req w',
    fetchRequestFromCwd E config lf excl ign w = (Ok req, w') /\
    manifest req = json /\
    patterns req = map (pattern_shape lf) (E1 ++ E2 ++ E3) /\
    requests req =
      map (request_of lf (fst r) None false) E1
      ++ map (request_of lf (fst r) (Some "dev") false) E2
      ++ map (request_of lf (fst r) (Some "optional") true) E3 /\
    rootPatternsToOrigin w' =
      record_origins lf optionalDependencies E3
        (record_origins lf devDependencies E2
           (record_origins lf dependencies E1 (rootPatternsToOrigin w))) /\
    rootManifestRegistries w' = rootManifestRegistries w ++ [fst r].
Proof.
  intros Hfound json ex E1 E2 E3.
  destruct (fetchRequestFromCwd_found E config lf excl ign w r Hfound)
    as (req & w' & Hrun & Hp & _ & _ & _ & Hm & _ & _ & _ & _ & Hreg & _).
  exists req, w'. split; [assumption |]. split; [assumption |]. split; [exact Hp |].
  destruct (readRootManifest_full (fst r) (path.join (cwd config) (snd r)) ex ign w)
    as (a & w1 & Hread & Hd & Ho).
  unfold fetchRequestFromCwd in Hrun. unfold bind at 1 in Hrun.
  rewrite registryLoop_find, Hfound in Hrun. fold ex in Hrun. rewrite Hread in Hrun.
  destruct (truthy (m_flat (normalizeManifest E (readJson config (path.join (cwd config) r.2)))));
    cbv [when bind modify ret] in Hrun; injection Hrun as <- <-;
    cbn [requests]; world_simpl; auto.
Qed.




(** X5. Nothing is ignored when unused patterns are left out, and when the
    install is neither in production mode nor ignoring optional
    dependencies: [ignorePatterns] is empty and [usedPatterns] is
    [patterns]. *)
Theorem fetchRequestFromCwd_nothing_ignored (excl : list string) (ign : bool) (w : World) :
  ign = true \/ (production config = false /\ ignoreOptional (flags w) = false) ->
  exists req w',
    fetchRequestFromCwd E config lf excl ign w = (Ok req, w') /\
    ignorePatterns req = [] /\
    usedPatterns req = patterns req.
Proof.
  intros Hcase.
  destruct (find (manifest_exists config w) (registries E)) as [reg |] eqn:Hfind.
  - destruct (fetchRequestFromCwd_found E config lf excl ign w reg Hfind)
      as (req & w' & Hrun & Hp & _ & Hu & Hi & _).
    exists req, w'. split; [assumption |]. rewrite Hp, Hu, Hi.
    unfold entries_of, used_entries, ignored_entries, processed.
    destruct Hcase as [-> | [-> ->]].
    + destruct (production config), (ignoreOptional (flags w)); cbn; split; reflexivity.
    + cbn. rewrite !andb_false_r. split; reflexivity.
  - rewrite (fetchRequestFromCwd_none E config lf excl ign w Hfind).
    eexists _, _. split; [reflexivity |]. split; reflexivity.
Qed.

(** X6. After [fetchRequestFromCwd], [rootPatternsToOrigin] gives every
    pattern of [patterns] a category, one whose dependency map has an entry
    with that pattern; the origin of any other pattern is what it was. *)
Theorem fetchRequestFromCwd_origins (excl : list string) (ign : bool) (w : World) :
  exists req w',
    fetchRequestFromCwd E config lf excl ign w = (Ok req, w') /\
    (forall p, In p (patterns req) ->
       exists d e,
         rootPatternsToOrigin w' !! p = Some d /\
         In e (default [] (depMapOf (manifest req) d)) /\
         pattern_shape lf e = p) /\
    (forall p, ~ In p (patterns req) ->
       rootPatternsToOrigin w' !! p = rootPatternsToOrigin w !! p).
Proof.
  destruct (find (manifest_exists config w) (registries E)) as [reg |] eqn:Hfind.
  - destruct (fetchRequestFromCwd_full excl ign w reg Hfind)
      as (req & w' & Hrun & Hm & Hp & _ & Ho & _).
    exists req, w'. split; [assumption |]. rewrite Hp, Ho, Hm.
    set (json := normalizeManifest E (readJson config (path.join (cwd config) (snd reg)))).
    set (ex := excludeNamesOf E excl []).
    set (E1 := processed json ex ign true dependencies).
    set (E2 := processed json ex ign (negb (production config)) devDependencies).
    set (E3 := processed json ex ign (negb (ignoreOptional (flags w))) optionalDependencies).
    set (m0 := rootPatternsToOrigin w).
    assert (Hfrom : forall d isUsed p,
              In p (map (pattern_shape lf) (processed json ex ign isUsed d)) ->
              exists e, In e (default [] (depMapOf json d)) /\ pattern_shape lf e = p).
    { intros d isUsed p Hin. apply in_map_iff in Hin. destruct Hin as (e & He & Hin).
      apply in_processed in Hin. exists e. tauto. }
    split.
    + intros p Hin.
      destruct (in_dec String.string_dec p (map (pattern_shape lf) E3)) as [H3 | H3].
      { exists optionalDependencies.
        destruct (Hfrom _ _ _ H3) as (e & He & Hs). exists e. split; [| auto].
        apply record_origins_lookup. assumption. }
      destruct (in_dec String.string_dec p (map (pattern_shape lf) E2)) as [H2 | H2].
      { exists devDependencies.
        destruct (Hfrom _ _ _ H2) as (e & He & Hs). exists e. split; [| auto].
        rewrite (proj2 (record_origins_lookup _ _ _ _) H3).
        apply record_origins_lookup. assumption. }
      rewrite !map_app, !in_app_iff in Hin.
      destruct Hin as [H1 | [H | H]]; [| contradiction | contradiction].
      exists dependencies.
      destruct (Hfrom _ _ _ H1) as (e & He & Hs). exists e. split; [| auto].
      rewrite (proj2 (record_origins_lookup _ _ _ _) H3),
        (proj2 (record_origins_lookup _ _ _ _) H2).
      apply record_origins_lookup. assumption.
    + intros p Hout. rewrite !map_app, !in_app_iff in Hout.
      rewrite (proj2 (record_origins_lookup _ _ _ _)) by tauto.
      rewrite (proj2 (record_origins_lookup _ _ _ _)) by tauto.
      apply record_origins_lookup. tauto.
  - rewrite (fetchRequestFromCwd_none E config lf excl ign w Hfind).
    eexists _, _. split; [reflexivity |]. split; [intros p [] | reflexivity].
Qed.

(** X7. [fetchRequestFromCwd] changes no flag but [flat], which it sets
    when the [flat] attribute of the manifest is truthy and never clears;
    it merges the resolutions of the manifest into [this.resolutions], and
    leaves the disk and the resolver alone. *)
Theorem fetchRequestFromCwd_frame (excl : list string) (ign : bool) (w : World) :
  exists req w',
    fetchRequestFromCwd E config lf excl ign w = (Ok req, w') /\
    flags w' = (if truthy (m_flat (manifest req)) then set_flat (flags w) true else flags w) /\
    resolutions w' = obj_assign (resolutions w) (default [] (m_resolutions (manifest req))) /\
    files w' = files w /\
    resolver w' = resolver w.
Proof.
  destruct (find (manifest_exists config w) (registries E)) as [reg |] eqn:Hfind.
  - destruct (fetchRequestFromCwd_found E config lf excl ign w reg Hfind)
      as (req & w' & Hrun & _ & _ & _ & _ & Hm & Hfl & Hfi & Hre & Hres & _).
    exists req, w'. rewrite Hm. auto.
  - rewrite (fetchRequestFromCwd_none E config lf excl ign w Hfind).
    eexists _, _. split; [reflexivity |]. cbn. auto.
Qed.

(** X8. Every request comes from an entry of one of the three dependency
    maps and is tagged after it: its registry is the one registry recorded
    in [rootManifestRegistries], its hint is that of the category (none,
    [dev], [optional]), and it is optional exactly when the category is
    [optionalDependencies]. *)
Theorem fetchRequestFromCwd_request_tags (excl : list string) (ign : bool) (w : World) :
  exists req w',
    fetchRequestFromCwd E config lf excl ign w = (Ok req, w') /\
    forall r, In r (requests req) ->
      exists d e,
        In e (default [] (depMapOf (manifest req) d)) /\
        req_pattern r = pattern_shape lf e /\
        req_hint r = hint_of d /\
        (req_optional r = true <-> d = optionalDependencies) /\
        rootManifestRegistries w' = rootManifestRegistries w ++ [req_registry r].
Proof.
  destruct (find (manifest_exists config w) (registries E)) as [reg |] eqn:Hfind.
  - destruct (fetchRequestFromCwd_full excl ign w reg Hfind)
      as (req & w' & Hrun & Hm & _ & Hd & _ & Hreg).
    exists req, w'. split; [assumption |]. intros r Hr.
    rewrite Hd, !in_app_iff, !in_map_iff in Hr. rewrite Hm, Hreg.
    destruct Hr as [(e & <- & He) | [(e & <- & He) | (e & <- & He)]];
      apply in_processed in He; destruct He as [He _].
    + exists dependencies, e. cbn. repeat split; auto; discriminate.
    + exists devDependencies, e. cbn. repeat split; auto; discriminate.
    + exists optionalDependencies, e. cbn. repeat split; auto.
  - rewrite (fetchRequestFromCwd_none E config lf excl ign w Hfind).
    eexists _, _. split; [reflexivity |]. intros r [].
Qed.

End CollectMore.


Lemma fetchRequestFromCwd_nothing_ignored_witness :
  exists req w',
    fetchRequestFromCwd Sample.engines (Sample.config true Sample.tidy) (Sample.lockfile_with [])
      [] true (Sample.world Sample.no_flags Sample.disk) = (Ok req, w') /\
    ignorePatterns req = [] /\
    usedPatterns req = patterns req.
Proof.
  apply fetchRequestFromCwd_nothing_ignored. left. reflexivity.
Defined.

(** ** Ignore marking *)

Lemma marks_only_refl (w : World) : marks_only w w.
Proof. unfold marks_only. repeat split; try reflexivity. intros i ref' H. eauto 10. Qed.

Lemma marks_only_trans (w1 w2 w3 : World) :
  marks_only w1 w2 -> marks_only w2 w3 -> marks_only w1 w3.
Proof.
  unfold marks_only.
  intros (A1 & A2 & A3 & A4 & A5 & A6 & A7 & A8 & A9 & A10 & A11)
         (B1 & B2 & B3 & B4 & B5 & B6 & B7 & B8 & B9 & B10 & B11).
  repeat split; try congruence.
  intros i ref3 H3.
  destruct (B11 i ref3 H3) as (ref2 & H2 & R1 & R2 & R3 & R4).
  destruct (A11 i ref2 H2) as (ref1 & H1 & S1 & S2 & S3 & S4).
  exists ref1. repeat split; try congruence.
  destruct R4 as [R4 | [R4 R5]]; destruct S4 as [S4 | [S4 S5]].
  - left. congruence.
  - right. split; congruence.
  - right. split; congruence.
  - right. split; congruence.
Qed.

(** X9. Whether it returns or throws, [markIgnored] only sets [ignore] on
    references that have exactly one request: every reference keeps its
    place, its requests, patterns and registry, an [ignore] that changes
    becomes [true] and belongs to a reference with one request, and nothing
    else in the resolver, the flags, the disk or the trace changes. *)
Theorem markIgnored_marks_only (E : Engines) (pats : list string) (w : World) :
  marks_only w (snd (markIgnored E pats w)).
Proof.
  revert w. unfold markIgnored.
  induction pats as [| pattern rest IH]; intros w; [apply marks_only_refl |].
  cbn [for_of]. unfold bind at 1.
  match goal with |- context [match ?c w with _ => _ end] => destruct (c w) as [[[] | e] w1] eqn:Hbody end;
    cbn [snd].
  - eapply marks_only_trans; [| apply IH].
    unfold bind at 1, get at 1 in Hbody.
    destruct (getStrictResolvedPattern E (resolver w) pattern) as [mf |]; [| discriminate Hbody].
    unfold bind at 1 in Hbody.
    destruct (reference_of (resolver w) mf) as [ref |] eqn:Href; cbn [invariant] in Hbody;
      [| discriminate Hbody].
    cbn [ret] in Hbody.
    destruct (length (ref_requests ref) =? 1)%nat eqn:Hlen; cbn [when] in Hbody.
    + cbv [modify] in Hbody. injection Hbody as <-.
      unfold reference_of in Href.
      destruct (pkg_reference mf) as [i |]; [| discriminate Href].
      change (r_references (resolver w) !! i = Some ref) in Href.
      unfold marks_only. world_simpl. cbn [default r_patterns patternsByPackage usedRegistries
                                             r_references set_r_references].
      repeat split; try reflexivity; [apply length_alter |].
      intros j ref' Hj. unfold id in Hj. destruct (decide (i = j)) as [<- | Hne].
      * rewrite list_lookup_alter_eq, Href in Hj. cbn in Hj. injection Hj as <-.
        exists ref. split; [assumption |]. repeat split; try reflexivity. right. split; [reflexivity |].
        apply Nat.eqb_eq. assumption.
      * rewrite list_lookup_alter_ne in Hj by assumption. exists ref'. auto 10.
    + cbv [ret] in Hbody. injection Hbody as <-. apply marks_only_refl.
  - unfold bind at 1, get at 1 in Hbody.
    destruct (getStrictResolvedPattern E (resolver w) pattern) as [mf |].
    + unfold bind at 1 in Hbody.
      destruct (reference_of (resolver w) mf) as [ref |]; cbn [invariant] in Hbody.
      * cbn [ret] in Hbody.
        destruct (length (ref_requests ref) =? 1)%nat; cbn [when] in Hbody; discriminate Hbody.
      * cbv [throw] in Hbody. injection Hbody as _ <-. apply marks_only_refl.
    + cbv [throw] in Hbody. injection Hbody as _ <-. apply marks_only_refl.
Qed.

(** ** Empty manifest folders *)

Lemma mkdirp_loop (config : Config) (regs : list string) :
  forall w,
    for_of regs (fun registryName =>
      fs.mkdirp (path.join (cwd config) (registryFolder config registryName))) w =
    (Ok tt,
     set_trace w (trace w ++ map (fun registryName =>
                    Mkdirp (path.join (cwd config) (registryFolder config registryName))) regs)).
Proof.
  induction regs as [| r rest IH]; intros w.
  - cbn. rewrite app_nil_r. destruct w; reflexivity.
  - cbn [for_of map]. unfold bind at 1. cbv [fs.mkdirp emit modify]. rewrite IH.
    world_simpl. rewrite <- app_assoc. reflexivity.
Qed.

(** X10. [createEmptyManifestFolders] creates, in order, the folder of
    each registry recorded in [rootManifestRegistries], under [cwd]; with a
    modules folder configured it creates none.  Nothing else changes. *)
Theorem createEmptyManifestFolders_folders (config : Config) (w : World) :
  createEmptyManifestFolders config w =
    (Ok tt,
     set_trace w
       (trace w ++
        match nonempty (modulesFolder config) with
        | Some _ => []
        | None =>
            map (fun registryName =>
                   Mkdirp (path.join (cwd config) (registryFolder config registryName)))
                (rootManifestRegistries w)
        end)).
Proof.
  unfold createEmptyManifestFolders. destruct (nonempty (modulesFolder config)).
  - cbn. rewrite app_nil_r. destruct w; reflexivity.
  - unfold bind, get. apply mkdirp_loop.
Qed.

(** ** Pruning the offline mirror, continued *)

Lemma prune_loop_noop (R : gset string) (ts : list WalkFile) (w : World) :
  (forall t, In t ts -> bool_decide (basename t ∈ R) = true) ->
  for_of ts (fun tarball =>
    when (negb (bool_decide (basename tarball ∈ R))) (fs.unlink (absolute tarball))) w
  = (Ok tt, w).
Proof.
  induction ts as [| t ts IH]; intros Hall; [reflexivity |].
  cbn [for_of]. unfold bind at 1. rewrite (Hall t (or_introl eq_refl)). cbn [negb when ret].
  apply IH. intros t' Ht'. apply Hall. right. assumption.
Qed.

(** X11. Pruning the mirror a second time deletes nothing: after
    [pruneOfflineMirror] has run, running it again with the same lockfile
    returns with the world as it is. *)
Theorem pruneOfflineMirror_idempotent (config : Config) (lock : list (string * LockManifest))
    (w : World) :
  exists w1,
    pruneOfflineMirror config lock w = (Ok tt, w1) /\
    pruneOfflineMirror config lock w1 = (Ok tt, w1).
Proof.
  unfold pruneOfflineMirror.
  destruct (nonempty (getOfflineMirrorPath config)) as [mirror |]; [| exists w; split; reflexivity].
  unfold bind at 1, fs.walk at 1.
  set (R := requiredTarballsOf lock ∅).
  set (ts := map (fs.walk_file mirror) (List.filter (fun f => fs.below mirror (fst f)) (files w))).
  destruct (prune_loop R ts w) as (w1 & Hrun & Hfiles).
  exists w1. split; [assumption |].
  unfold bind at 1, fs.walk at 1. apply prune_loop_noop.
  intros t Ht. apply in_map_iff in Ht. destruct Ht as (g & <- & Hg).
  apply filter_In in Hg. destruct Hg as [Hg Hbelow].
  rewrite Hfiles in Hg. apply filter_In in Hg. destruct Hg as [Hg Hkeep].
  cbn [fs.walk_file basename].
  destruct (bool_decide (path.basename (fst g) ∈ R)) eqn:Hb; [reflexivity | exfalso].
  apply negb_true_iff in Hkeep. rewrite <- not_true_iff_false in Hkeep. apply Hkeep.
  apply existsb_exists. exists (fs.walk_file mirror g). split.
  - unfold ts. apply in_map, filter_In. auto.
  - cbn [fs.walk_file absolute basename]. rewrite String.eqb_refl, Hb. reflexivity.
Qed.

(** ** Saving the lockfile, continued *)

(** X12. When lockfile writes are enabled, [saveLockfileAndIntegrity]
    saves the integrity record exactly once, with the patterns it was given
    and the candidate lockfile: after every deletion in the offline mirror,
    and before the lockfile is written, if it is. *)
Theorem saveLockfileAndIntegrity_order (E : Engines) (config : Config) (lf : Lockfile)
    (pats : list string) (w : World) :
  lockfile (flags w) = true -> pureLockfile (flags w) = false ->
  let candidate := getLockfile lf (r_patterns (resolver w)) in
  let loc := path.join (cwd config) (LOCKFILE_FILENAME E) in
  exists w' unlinks rest,
    saveLockfileAndIntegrity E config lf pats w = (Ok tt, w') /\
    trace w' = trace w ++ unlinks ++ IntegritySave pats candidate :: rest /\
    Forall (fun e => exists l, e = Unlink l) unlinks /\
    (rest = [] \/
     rest = [WriteFilePreservingEol loc (lockStringify E candidate);
             ReporterSuccess (lang "savedLockfile" [])]).
Proof.
  intros Hlock Hpure candidate loc.
  unfold saveLockfileAndIntegrity. unfold bind at 1, get at 1.
  rewrite Hlock, Hpure. cbn [negb orb]. fold candidate. fold loc.
  destruct (prune_before_save config candidate w) as (w1 & evs1 & Hprune & Hfl & Htr & Hev).
  unfold bind at 1. rewrite Hprune.
  destruct (lockFileHasAllPatterns lf pats && resolverPatternsAreSameAsInLockfile lf candidate
            && negb (length pats =? 0)%nat && negb (force (flags w))).
  - cbv [bind emit modify ret]. world_simpl.
    eexists _, evs1, []. split; [reflexivity |]. world_simpl. rewrite Htr, <- app_assoc.
    auto.
  - cbv [bind emit modify ret fs.writeFilePreservingEol _logSuccessSaveLockfile reporter.success].
    world_simpl.
    eexists _, evs1, _. split; [reflexivity |]. world_simpl. rewrite Htr, <- !app_assoc.
    split; [reflexivity |]. split; [assumption |]. right. reflexivity.
Qed.

Lemma saveLockfileAndIntegrity_order_witness :
  let w := Sample.world Sample.no_flags Sample.mirror_disk in
  let lf := Sample.lockfile_with [] in
  exists w' unlinks rest,
    saveLockfileAndIntegrity Sample.engines Sample.mirror_config lf ["x@^1.0.0"] w = (Ok tt, w') /\
    trace w' = unlinks ++ IntegritySave ["x@^1.0.0"] [] :: rest /\
    Forall (fun e => exists l, e = Unlink l) unlinks /\
    (rest = [] \/
     rest = [WriteFilePreservingEol "/proj/yarn.lock" ""; ReporterSuccess (lang "savedLockfile" [])]).
Proof.
  intros w lf.
  exact (saveLockfileAndIntegrity_order Sample.engines Sample.mirror_config lf ["x@^1.0.0"] w
           eq_refl eq_refl).
Defined.

(** ** The lifecycle envelope *)



(** ** The update notice *)

(** X14. The notice of an outdated yarn starts with the warning naming the
    two versions.  For the installation methods [tar], [homebrew], [deb],
    [rpm], [npm], [chocolatey] and [apk] it goes on with the command to
    run, for [msi] with the installer if there is one, and for any other
    method with nothing; a command and an installer never come together. *)
Theorem outdatedOutput_cases (latest current method sh msi : string) :
  exists rest,
    outdatedOutput latest current method sh msi =
      CallWarn (lang "yarnOutdated" [latest; current]) :: rest /\
    (In method ["tar"; "homebrew"; "deb"; "rpm"; "npm"; "chocolatey"; "apk"] ->
     exists command,
       getUpdateCommand method sh = Some command /\
       getUpdateInstaller method msi = None /\
       rest = [CallInfo (lang "yarnOutdatedCommand" []); CallCommand command]) /\
    (method = "msi" ->
     getUpdateCommand method sh = None /\
     rest = if String.eqb msi "" then []
            else [CallInfo (lang "yarnOutdatedInstaller" [msi])]) /\
    (~ In method ["tar"; "homebrew"; "deb"; "rpm"; "npm"; "chocolatey"; "apk"; "msi"] ->
     rest = []).
Proof.
  eexists. split; [reflexivity |]. split; [| split].
  - intros Hin. cbn in Hin.
    destruct Hin as [<- | [<- | [<- | [<- | [<- | [<- | [<- | []]]]]]]];
      eexists; (split; [reflexivity |]); split; reflexivity.
  - intros ->. split; [reflexivity |]. cbn. destruct (String.eqb msi ""); reflexivity.
  - intros Hout. unfold getUpdateCommand, getUpdateInstaller.
    repeat match goal with
           | |- context [String.eqb method ?s] =>
               destruct (String.eqb_spec method s) as [-> | ?];
               [exfalso; apply Hout; cbn; tauto |]
           end.
    reflexivity.
Qed.

(** ** Flattening, continued *)

Lemma bind_ok_inv {A B : Type} (c : M A) (k : A -> M B) (w w' : World) (b : B) :
  bind c k w = (Ok b, w') -> exists a w1, c w = (Ok a, w1) /\ k a w1 = (Ok b, w').
Proof.
  unfold bind. destruct (c w) as [[a | e] w1]; [eauto | discriminate].
Qed.

Ltac inv_bind H :=
  let a := fresh "a" in
  let w1 := fresh "w" in
  let H1 := fresh "Hrun" in
  apply bind_ok_inv in H; destruct H as (a & w1 & H1 & H).

Lemma notIgnored_live (infos : list Manifest) (w : World) :
  notIgnored infos w =
    (match live (resolver w) infos with
     | Some kept => Ok kept
     | None => Throw (InvariantViolation "expected package reference")
     end, w).
Proof.
  induction infos as [| mf rest IH]; [reflexivity |].
  cbn [notIgnored live]. unfold bind at 1, get at 1. unfold bind at 1.
  destruct (reference_of (resolver w) mf) as [ref |]; cbn [invariant]; [| reflexivity].
  cbn [ret]. unfold bind at 1. rewrite IH.
  destruct (live (resolver w) rest); reflexivity.
Qed.

Lemma selectOptions_world (infos : list Manifest) (w : World) :
  snd (selectOptions infos w) = w.
Proof.
  induction infos as [| mf rest IH]; [reflexivity |].
  cbn [selectOptions]. unfold bind at 1, get at 1. unfold bind at 1.
  destruct (reference_of (resolver w) mf) as [ref |]; cbn [invariant]; [| reflexivity].
  cbn [ret]. unfold bind at 1.
  destruct (selectOptions rest w) as [[opts | e] w1]; cbn [snd] in IH; subst w1; reflexivity.
Qed.

Section FlattenMore.

Variable E : Engines.
Variable config : Config.




End FlattenMore.


(** The events of [flatten], for any property they satisfy. *)
Section FlattenEvents.

Variable E : Engines.
Variable config : Config.
Variable P : Event -> Prop.
Hypothesis P_select : forall q a o, P (ReporterSelect q a o).
Hypothesis P_collapse : forall name ver, P (CollapseAllVersionsOfPackage name ver).

Ltac event_step := first [ quiet_step | apply quiet_emit; auto ].

Lemma events_notIgnored (infos : list Manifest) : quiet P (notIgnored infos).
Proof. induction infos as [| mf rest IH]; cbn [notIgnored]; repeat quiet_step. Qed.

Lemma events_selectOptions (infos : list Manifest) : quiet P (selectOptions infos).
Proof. induction infos as [| mf rest IH]; cbn [selectOptions]; repeat quiet_step. Qed.

Lemma events_flattenName (name : string) (acc : list string) :
  quiet P (flattenName E name acc).
Proof.
  unfold flattenName. apply quiet_bind; [apply quiet_get | intros w0].
  apply quiet_bind; [apply events_notIgnored | intros infos].
  assert (Hask : forall options,
            quiet P
              (emit (ReporterSelect (lang "manualVersionResolution" [name]) (lang "answer" []) options) ;;
               modify (fun w => set_resolutions w
                         (obj_set (resolutions w) name
                            (reporter_select E (lang "manualVersionResolution" [name])
                               (lang "answer" []) options))) ;;
               ret (reporter_select E (lang "manualVersionResolution" [name])
                      (lang "answer" []) options)))
    by (intros options; repeat event_step).
  destruct infos as [| i1 [| i2 rest]].
  - apply quiet_ret.
  - destruct (obj_get (patternsByPackage (resolver w0)) name) as [[first others] |];
      [apply quiet_ret | apply quiet_throw].
  - apply quiet_bind; [apply events_selectOptions | intros options].
    apply quiet_bind.
    + destruct (nonempty (obj_get (resolutions w0) name)) as [v |]; [| apply Hask].
      destruct (existsb (String.eqb v) (map pkg_version (i1 :: i2 :: rest)));
        [apply quiet_ret | apply Hask].
    + intros ver. repeat event_step.
Qed.

Lemma events_flattenNames (names : list string) :
  forall acc, quiet P (flattenNames E names acc).
Proof.
  induction names as [| name rest IH]; intros acc; cbn [flattenNames]; [apply quiet_ret |].
  apply quiet_bind; [apply events_flattenName | intros acc'; apply IH].
Qed.

Lemma events_recordResolutions (res : list (string * string)) :
  forall manifests, quiet P (recordResolutions E res manifests).
Proof.
  induction res as [| [name ver] rest IH]; intros manifests; cbn [recordResolutions];
    [apply quiet_ret |].
  apply quiet_bind; [apply quiet_get | intros w0].
  destruct (obj_get (patternsByPackage (resolver w0)) name) as [[first others] |]; [| apply IH].
  apply quiet_bind; [apply quiet_invariant | intros mf].
  apply quiet_bind; [apply quiet_invariant | intros ref].
  destruct (obj_get manifests (ref_registry ref)); [apply IH | apply quiet_throw].
Qed.

Hypothesis P_save : forall manifests, P (SaveRootManifests manifests).

Lemma events_flatten (pats : list string) : quiet P (flatten E config pats).
Proof.
  unfold flatten. apply quiet_bind; [apply quiet_get | intros w0].
  destruct (negb (flat (flags w0))); [apply quiet_ret |].
  apply quiet_bind; [apply events_flattenNames | intros flattened].
  apply quiet_bind; [apply quiet_get | intros w1].
  apply quiet_bind; [| intros _; apply quiet_ret].
  apply quiet_when. apply quiet_bind; [apply events_recordResolutions | intros manifests].
  apply quiet_emit. apply P_save.
Qed.

End FlattenEvents.

(** The loop over the resolutions leaves the world alone. *)
Lemma recordResolutions_world (E : Engines) (res : list (string * string)) :
  forall manifests w, snd (recordResolutions E res manifests w) = w.
Proof.
  induction res as [| [name ver] rest IH]; intros manifests w; [reflexivity |].
  cbn [recordResolutions]. unfold bind at 1, get at 1.
  destruct (obj_get (patternsByPackage (resolver w)) name) as [[first others] |]; [| apply IH].
  unfold bind at 1.
  destruct (firstResolved E (resolver w) (first :: others)) as [mf |]; cbn [invariant];
    [| reflexivity].
  cbn [ret]. unfold bind at 1.
  destruct (reference_of (resolver w) mf) as [ref |]; cbn [invariant]; [| reflexivity].
  cbn [ret]. destruct (obj_get manifests (ref_registry ref)); [apply IH | reflexivity].
Qed.

Lemma same_but_resolutions_refl (ms : list (string * RootManifestFile)) :
  same_but_resolutions ms ms.
Proof. induction ms; constructor; [repeat split | assumption]. Qed.

Lemma same_but_resolutions_trans (m1 m2 m3 : list (string * RootManifestFile)) :
  same_but_resolutions m1 m2 -> same_but_resolutions m2 m3 -> same_but_resolutions m1 m3.
Proof.
  unfold same_but_resolutions. intros H12. revert m3.
  induction H12 as [| a b l1 l2 Hab H12 IH]; intros m3 H23; inversion H23; subst; constructor.
  - intuition congruence.
  - apply IH. assumption.
Qed.

Lemma same_but_resolutions_set (ms : list (string * RootManifestFile)) (k : string)
    (file : RootManifestFile) (r : option (list (string * string))) :
  obj_get ms k = Some file ->
  same_but_resolutions ms (obj_set ms k (set_rm_object file (set_m_resolutions (rm_object file) r))).
Proof.
  induction ms as [| [k' f'] ms IH]; [discriminate |]. cbn.
  destruct (String.eqb k' k); intros H.
  - injection H as ->. constructor; [repeat split | apply same_but_resolutions_refl].
  - constructor; [repeat split | apply IH; assumption].
Qed.

(** X17. The loop of [flatten] that writes the resolutions into the root
    manifest objects keeps every root manifest in its place, with its
    location and its three dependency maps: only [resolutions] fields
    change. *)
Theorem recordResolutions_keeps_dependencies (E : Engines) (res : list (string * string)) :
  forall manifests out w w',
    recordResolutions E res manifests w = (Ok out, w') ->
    same_but_resolutions manifests out.
Proof.
  induction res as [| [name ver] rest IH]; intros manifests out w w' H.
  - cbv [recordResolutions ret] in H. injection H as <- _. apply same_but_resolutions_refl.
  - cbn [recordResolutions] in H. inv_bind H. cbv [get] in Hrun. injection Hrun as <- <-.
    destruct (obj_get (patternsByPackage (resolver w)) name) as [[first others] |];
      [| eapply IH; eassumption].
    inv_bind H. inv_bind H.
    destruct (obj_get manifests (ref_registry a0)) as [file |] eqn:Hfile; [| discriminate H].
    eapply same_but_resolutions_trans; [| eapply IH; eassumption].
    apply same_but_resolutions_set. assumption.
Qed.

Lemma recordResolutions_keeps_dependencies_witness :
  same_but_resolutions
    (getRootManifests (Sample.config false Sample.flat_manifest)) Sample.flat_manifest_saved.
Proof.
  apply (recordResolutions_keeps_dependencies Sample.flat_engines [("b", "2.0.0")]
           (getRootManifests (Sample.config false Sample.flat_manifest))
           Sample.flat_manifest_saved (Sample.flat_world [("b", "2.0.0")])
           (Sample.flat_world [("b", "2.0.0")])).
  vm_compute. reflexivity.
Defined.

Section NoPrompt.

Variable E : Engines.
Variable config : Config.
Variable r0 : PackageResolver.
Variable res : list (string * string).
Variable names : list string.
Hypothesis Hcover : resolutions_cover E r0 res names.

Lemma flattenName_no_prompt (name : string) (acc : list string) (w0 : World) :
  In name names -> resolutions w0 = res -> collapsed E r0 (resolver w0) ->
  exists out w1,
    flattenName E name acc w0 = (out, w1) /\
    resolutions w1 = res /\
    collapsed E r0 (resolver w1) /\
    extends_by no_prompt w0 w1.
Proof.
  intros Hin Hres Hcol.
  assert (Hsame : forall out : Result (list string),
            exists out' w1, (out, w0) = (out', w1) /\ resolutions w1 = res /\
                            collapsed E r0 (resolver w1) /\ extends_by no_prompt w0 w1).
  { intros out. exists out, w0. split; [reflexivity |]. split; [assumption |].
    split; [assumption | apply extends_by_refl]. }
  unfold flattenName. erewrite bind_run by reflexivity.
  unfold bind at 1. rewrite notIgnored_live.
  destruct (live (resolver w0) (getAllInfoForPackageName E (resolver w0) name))
    as [infos |] eqn:Hlive; [| apply Hsame].
  destruct infos as [| i1 [| i2 rest]].
  - apply Hsame.
  - destruct (obj_get (patternsByPackage (resolver w0)) name) as [[first others] |]; apply Hsame.
  - unfold bind at 1.
    pose proof (selectOptions_world (i1 :: i2 :: rest) w0) as Hopts.
    destruct (selectOptions (i1 :: i2 :: rest) w0) as [[options | e] w1]; cbn [snd] in Hopts;
      subst w1; [| apply Hsame].
    destruct (Hcover (resolver w0) name (i1 :: i2 :: rest) Hcol Hin Hlive) as (v & Hv & Hvin);
      [cbn; lia |].
    rewrite Hres, Hv.
    assert (Hex : existsb (String.eqb v) (map pkg_version (i1 :: i2 :: rest)) = true)
      by (apply existsb_exists; exists v; split; [assumption | apply String.eqb_refl]).
    rewrite Hex.
    cbv [bind ret get emit modify]. world_simpl.
    eexists _, _. split; [reflexivity |]. world_simpl.
    split; [assumption |]. split; [apply collapsed_step; assumption |].
    apply (extends_by_events _ _ _ [CollapseAllVersionsOfPackage name v]); [reflexivity |].
    repeat constructor. intros q a o. discriminate.
Qed.

Lemma flattenNames_no_prompt (todo : list string) :
  forall acc w0,
    (forall n, In n todo -> In n names) ->
    resolutions w0 = res -> collapsed E r0 (resolver w0) ->
    exists out w1,
      flattenNames E todo acc w0 = (out, w1) /\
      resolutions w1 = res /\
      extends_by no_prompt w0 w1.
Proof.
  induction todo as [| name rest IH]; intros acc w0 Hsub Hres Hcol.
  - eexists _, _. split; [reflexivity |]. split; [assumption | apply extends_by_refl].
  - cbn [flattenNames]. unfold bind at 1.
    destruct (flattenName_no_prompt name acc w0 (Hsub name (or_introl eq_refl)) Hres Hcol)
      as (out1 & w1 & Hrun1 & Hres1 & Hcol1 & Hext1).
    rewrite Hrun1. destruct out1 as [acc' | e].
    + destruct (IH acc' w1 (fun n Hn => Hsub n (or_intror Hn)) Hres1 Hcol1)
        as (out2 & w2 & Hrun2 & Hres2 & Hext2).
      exists out2, w2. split; [assumption |].
      split; [assumption | eapply extends_by_trans; eassumption].
    + eexists _, _. split; [reflexivity |]. split; assumption.
Qed.

End NoPrompt.

(** X16. When every package with several live versions has a resolution
    that is one of these versions, [flatten] does not prompt and leaves
    [this.resolutions] as it is. *)
Theorem flatten_no_prompt (E : Engines) (config : Config) (pats : list string) (w : World) :
  resolutions_cover E (resolver w) (resolutions w)
    (getAllDependencyNamesByLevelOrder E (resolver w) pats) ->
  exists out w',
    flatten E config pats w = (out, w') /\
    resolutions w' = resolutions w /\
    extends_by no_prompt w w'.
Proof.
  intros Hcover. unfold flatten. erewrite bind_run by reflexivity.
  destruct (negb (flat (flags w)));
    [eexists _, _; split; [reflexivity |]; split; [reflexivity | apply extends_by_refl] |].
  unfold bind at 1.
  destruct (flattenNames_no_prompt E (resolver w) (resolutions w) _ Hcover
              (getAllDependencyNamesByLevelOrder E (resolver w) pats) [] w
              (fun n Hn => Hn) eq_refl (collapsed_here E (resolver w)))
    as (out1 & w1 & Hrun1 & Hres & Hext).
  rewrite Hrun1. destruct out1 as [flattened | e];
    [| eexists _, _; split; [reflexivity |]; split; assumption].
  erewrite bind_run by reflexivity.
  destruct (negb (length (resolutions w1) =? 0)%nat); cbn [when].
  - unfold bind at 1. unfold bind at 1.
    pose proof (recordResolutions_world E (resolutions w1) (getRootManifests config) w1) as Hw.
    destruct (recordResolutions E (resolutions w1) (getRootManifests config) w1)
      as [[manifests | e] w2]; cbn [snd] in Hw; subst w2.
    + cbv [emit modify ret]. world_simpl.
      eexists _, _. split; [reflexivity |]. world_simpl. split; [assumption |].
      eapply extends_by_trans; [exact Hext |].
      apply (extends_by_events _ _ _ [SaveRootManifests manifests]); [reflexivity |].
      repeat constructor. intros q a o. discriminate.
    + eexists _, _. split; [reflexivity |]. split; assumption.
  - cbv [bind ret]. eexists _, _. split; [reflexivity |]. split; assumption.
Qed.

(** With [resolutions: {b: "2.0.0"}] in place the flat project is
    flattened without a question. *)
Lemma flatten_no_prompt_witness :
  let w := Sample.flat_world [("b", "2.0.0")] in
  exists w',
    flatten Sample.flat_engines (Sample.config false Sample.flat_manifest)
      ["b@^1.0.0"; "c@^1.0.0"] w = (Ok ["b@2.0.0"; "c@^1.0.0"], w') /\
    resolutions w' = [("b", "2.0.0")] /\
    extends_by no_prompt w w'.
Proof.
  intros w.
  destruct (flatten_no_prompt Sample.flat_engines (Sample.config false Sample.flat_manifest)
              ["b@^1.0.0"; "c@^1.0.0"] w) as (out & w' & Hrun & Hres & Hext).
  - intros r name infos Hcol Hin Hlive Hlen.
    assert (Hr : forall r', collapsed Sample.flat_engines Sample.flat_resolver r' ->
                            r' = Sample.flat_resolver)
      by (intros r' H; induction H; [reflexivity | cbn; assumption]).
    apply Hr in Hcol. subst r. cbn in Hin. destruct Hin as [<- | [<- | []]].
    + vm_compute in Hlive. injection Hlive as <-. exists "2.0.0". split; [reflexivity |].
      cbn. auto.
    + vm_compute in Hlive. injection Hlive as <-. cbn in Hlen. lia.
  - exists w'. split; [| split; assumption].
    rewrite Hrun. vm_compute in Hrun. injection Hrun as <- _. reflexivity.
Defined.

(** ** What the pipeline does under which flags *)

Lemma keeps_quiet (fl : Flags) (P : Event -> Prop) {A : Type} (c : M A) :
  quiet P c -> keeps fl P c.
Proof.
  intros Hq w Hfl. destruct (Hq w) as [H1 H2]. split; [congruence | assumption].
Qed.

Lemma keeps_bind (fl : Flags) (P : Event -> Prop) {A B : Type} (c : M A) (k : A -> M B) :
  keeps fl P c -> (forall a, keeps fl P (k a)) -> keeps fl P (bind c k).
Proof.
  intros Hc Hk w Hfl. unfold bind. specialize (Hc w Hfl).
  destruct (c w) as [[a | e] w1]; cbn [snd] in *; [| assumption].
  destruct Hc as [Hf Ht]. destruct (Hk a w1 Hf) as [Hf' Ht'].
  split; [assumption | eapply extends_by_trans; eassumption].
Qed.

(** After [w <- get], the flags of [w] are known. *)
Lemma keeps_get (fl : Flags) (P : Event -> Prop) {B : Type} (k : World -> M B) :
  (forall w0, flags w0 = fl -> keeps fl P (k w0)) -> keeps fl P (bind get k).
Proof.
  intros Hk w Hfl. unfold bind, get. apply Hk; assumption.
Qed.

Lemma quiet_markIgnored (E : Engines) (P : Event -> Prop) (pats : list string) :
  quiet P (markIgnored E pats).
Proof.
  unfold markIgnored. apply quiet_for_of. intros pattern.
  apply quiet_bind; [apply quiet_get | intros w0].
  destruct (getStrictResolvedPattern E (resolver w0) pattern); [| apply quiet_throw].
  repeat quiet_step.
Qed.

Lemma quiet_createEmptyManifestFolders (config : Config) (P : Event -> Prop) :
  (forall dir, P (Mkdirp dir)) -> quiet P (createEmptyManifestFolders config).
Proof.
  intros HP. unfold createEmptyManifestFolders.
  destruct (nonempty (modulesFolder config)); [apply quiet_ret |].
  apply quiet_bind; [apply quiet_get | intros w0].
  apply quiet_for_of. intros r. apply quiet_emit. apply HP.
Qed.

Section Allowed.

Variable E : Engines.
Variable config : Config.
Variable lf : Lockfile.
Variable fl : Flags.

Ltac allowed_step :=
  first [ apply keeps_quiet; solve [ repeat first [ quiet_step | apply quiet_emit; exact eq_refl ] ]
        | apply keeps_bind; [| intros ?] ].

Lemma keeps_saveLockfileAndIntegrity (pats : list string) :
  keeps fl (permitted fl) (saveLockfileAndIntegrity E config lf pats).
Proof.
  unfold saveLockfileAndIntegrity. apply keeps_get. intros w0 Hfl. rewrite Hfl.
  destruct (lockfile fl) eqn:Hlock; cbn [negb orb]; [| apply keeps_quiet, quiet_ret].
  destruct (pureLockfile fl) eqn:Hpure; [apply keeps_quiet, quiet_ret |].
  assert (Hon : forall e,
            (exists l, e = Unlink l) \/ (exists p c, e = IntegritySave p c) \/
            (exists l d, e = WriteFilePreservingEol l d) \/ (exists m, e = ReporterSuccess m) ->
            permitted fl e).
  { intros e [(l & ->) | [(p & c & ->) | [(l & d & ->) | (m & ->)]]]; unfold permitted; cbn;
      rewrite ?Hlock, ?Hpure; reflexivity. }
  apply keeps_quiet.
  apply quiet_bind.
  { apply quiet_when. intros w. destruct (quiet_pruneOfflineMirror config
        (getLockfile lf (r_patterns (resolver w0))) w) as [Hf (evs & Ht & Hev)].
    split; [assumption |]. exists evs. split; [assumption |].
    eapply Forall_impl; [exact Hev |]. intros e He. apply Hon. left. assumption. }
  intros _. apply quiet_bind; [apply quiet_emit, Hon; right; left; eauto | intros _].
  destruct (_ && _ && _ && _); [apply quiet_ret |].
  apply quiet_bind; [| intros _; apply quiet_emit, Hon; eauto 10].
  apply quiet_bind; [apply quiet_emit, Hon; eauto 10 |].
  intros _. apply quiet_modify. intros w. split; reflexivity.
Qed.

Lemma keeps_bailout (pats : list string) : keeps fl (permitted fl) (bailout E config lf pats).
Proof.
  unfold bailout. apply keeps_get. intros w0 Hfl. rewrite Hfl.
  destruct (skipIntegrityCheck fl || force fl) eqn:Hskip; [apply keeps_quiet, quiet_ret |].
  destruct (cache lf) as [c |]; [| apply keeps_quiet, quiet_ret].
  apply keeps_bind.
  { apply keeps_quiet, quiet_emit. unfold permitted. cbn. rewrite Hskip. reflexivity. }
  intros _.
  destruct (frozenLockfile fl && _); [apply keeps_quiet, quiet_throw |].
  apply keeps_bind; [apply keeps_quiet, quiet_exists | intros haveLockfile].
  destruct (integrityMatches _ && haveLockfile).
  { apply keeps_quiet. repeat first [ quiet_step | apply quiet_emit; exact eq_refl ]. }
  destruct ((length pats =? 0)%nat && _); [| apply keeps_quiet, quiet_ret].
  apply keeps_bind; [apply keeps_quiet, quiet_emit; exact eq_refl | intros _].
  apply keeps_bind.
  { apply keeps_quiet, quiet_createEmptyManifestFolders. intros dir. exact eq_refl. }
  intros _. apply keeps_bind; [apply keeps_saveLockfileAndIntegrity | intros _].
  apply keeps_quiet, quiet_ret.
Qed.

Lemma keeps_flatten (pats : list string) : keeps fl (permitted fl) (flatten E config pats).
Proof.
  apply keeps_quiet, events_flatten; intros; exact eq_refl.
Qed.

Lemma keeps_runStep (request : InstallCwdRequest) (step : Step) (curr total : nat)
    (vars : StepVars) :
  (step = savingHar -> har fl = true) ->
  keeps fl (permitted fl) (runStep E config lf request step curr total vars).
Proof.
  intros Hhar. destruct step; cbn [runStep].
  - apply keeps_bind; [apply keeps_quiet, quiet_emit; exact eq_refl | intros _].
    apply keeps_get. intros w0 Hfl.
    apply keeps_bind; [apply keeps_quiet, quiet_emit; exact eq_refl | intros _].
    apply keeps_bind;
      [apply keeps_quiet, quiet_modify; intros w; split; reflexivity | intros _].
    apply keeps_bind; [apply keeps_flatten | intros flattened].
    apply keeps_bind; [apply keeps_bailout | intros b]. apply keeps_quiet, quiet_ret.
  - apply keeps_bind; [apply keeps_quiet, quiet_markIgnored | intros _].
    apply keeps_quiet. repeat first [ quiet_step | apply quiet_emit; exact eq_refl ].
  - apply keeps_quiet. repeat first [ quiet_step | apply quiet_emit; exact eq_refl ].
  - apply keeps_get. intros w0 Hfl. rewrite Hfl.
    apply keeps_bind; [apply keeps_quiet, quiet_emit; exact eq_refl | intros _].
    apply keeps_bind; [| intros _; apply keeps_quiet, quiet_ret].
    destruct (ignoreScripts fl) eqn:Hign; apply keeps_quiet, quiet_emit; [exact eq_refl |].
    unfold permitted. cbn. rewrite Hign. reflexivity.
  - apply keeps_bind; [apply keeps_quiet, quiet_emit; exact eq_refl | intros _].
    apply keeps_bind; [| intros _; apply keeps_quiet, quiet_ret].
    apply keeps_quiet, quiet_emit. unfold permitted. cbn. apply Hhar. reflexivity.
  - apply keeps_quiet. repeat first [ quiet_step | apply quiet_emit; exact eq_refl ].
Qed.

Lemma keeps_runSteps (request : InstallCwdRequest) (steps : list Step) :
  (In savingHar steps -> har fl = true) ->
  forall currentStep total vars,
    keeps fl (permitted fl) (runSteps E config lf request steps currentStep total vars).
Proof.
  induction steps as [| step rest IH]; intros Hhar currentStep total vars; cbn [runSteps].
  - apply keeps_quiet, quiet_ret.
  - apply keeps_bind.
    + apply keeps_runStep. intros ->. apply Hhar. left. reflexivity.
    + intros stepResult. destruct (snd stepResult); [apply keeps_quiet, quiet_ret |].
      apply IH. intros Hin. apply Hhar. right. assumption.
Qed.

(** The part of [init] that follows the collection of the requests. *)
Lemma keeps_init_tail (request : InstallCwdRequest) :
  keeps fl (permitted fl)
    (w <- get ;;
     doClean <- shouldClean E config ;;
     let steps :=
       [resolvingPackages; fetchingPackages; linkingDependencies; buildingPackages]
       ++ (if har (flags w) then [savingHar] else [])
       ++ (if doClean then [cleaningModules] else []) in
     let vars := {| topLevelPatterns := []; flattenedTopLevelPatterns := [] |} in
     out <- runSteps E config lf request steps 0 (length steps) vars ;;
     if snd out then ret (flattenedTopLevelPatterns (fst out))
     else
       saveLockfileAndIntegrity E config lf (topLevelPatterns (fst out)) ;;
       maybeOutputUpdate ;;
       emit ClearCache ;;
       ret (flattenedTopLevelPatterns (fst out))).
Proof.
  apply keeps_get. intros w0 Hfl. rewrite Hfl.
  apply keeps_bind; [apply keeps_quiet, quiet_exists | intros doClean].
  cbv zeta. apply keeps_bind.
  - apply keeps_runSteps. cbn [app]. intros Hin.
    destruct (har fl); [reflexivity |].
    cbn in Hin. destruct doClean; cbn in Hin;
      repeat match goal with H : _ \/ _ |- _ => destruct H as [H | H]; try discriminate H end;
      contradiction.
  - intros out. destruct (snd out); [apply keeps_quiet, quiet_ret |].
    apply keeps_bind; [apply keeps_saveLockfileAndIntegrity | intros _].
    apply keeps_quiet. unfold maybeOutputUpdate.
    repeat first [ quiet_step | apply quiet_emit; exact eq_refl ].
Qed.

End Allowed.

Lemma extends_by_weaken (P Q : Event -> Prop) (w w' : World) :
  (forall e, P e -> Q e) -> extends_by P w w' -> extends_by Q w w'.
Proof.
  intros HPQ (evs & H & F). exists evs. split; [assumption |].
  eapply Forall_impl; [exact F | assumption].
Qed.

Lemma allowed_set_flat (fl : Flags) (b : bool) (e : Event) :
  allowed (set_flat fl b) e = allowed fl e.
Proof. destruct e; reflexivity. Qed.

(** Collecting the requests reads one file at most. *)
Lemma fetchRequestFromCwd_events (E : Engines) (config : Config) (lf : Lockfile)
    (excl : list string) (ign : bool) (w : World) :
  exists req w2,
    fetchRequestFromCwd E config lf excl ign w = (Ok req, w2) /\
    (flags w2 = flags w \/ flags w2 = set_flat (flags w) true) /\
    extends_by (fun e => exists loc, e = ReadJson loc) w w2.
Proof.
  destruct (find (manifest_exists config w) (registries E)) as [r |] eqn:Hfind.
  - destruct (fetchRequestFromCwd_found E config lf excl ign w r Hfind)
      as (req & w2 & Hrun & _ & _ & _ & _ & _ & Hfl & _ & _ & _ & _ & Htr).
    exists req, w2. split; [assumption |]. split.
    + rewrite Hfl. destruct (truthy _); auto.
    + eapply extends_by_events; [exact Htr |]. repeat constructor. eauto.
  - rewrite (fetchRequestFromCwd_none E config lf excl ign w Hfind).
    eexists _, _. split; [reflexivity |]. split; [auto | apply extends_by_refl].
Qed.

(** Whatever [init] does, it only gives rise to events its flags allow. *)
Lemma init_allowed (E : Engines) (config : Config) (lf : Lockfile) (w : World) :
  exists out w',
    init E config lf w = (out, w') /\
    extends_by (fun e => allowed (flags w) e = true) w w'.
Proof.
  unfold init.
  erewrite bind_run by reflexivity.
  erewrite bind_run by reflexivity.
  cbv [checkUpdate emit modify]. world_simpl.
  set (shrinkwrap := existsb _ (files w)).
  set (w0 := set_trace w (trace w ++ [CheckUpdate])).
  assert (Hpre : exists w1,
            when shrinkwrap (reporter.warn (lang "shrinkwrapWarning" [])) w0 = (Ok tt, w1) /\
            flags w1 = flags w /\
            extends_by (fun e => allowed (flags w) e = true) w w1).
  { destruct shrinkwrap; eexists; (split; [reflexivity |]); split; try reflexivity.
    - apply (extends_by_events _ _ _ [CheckUpdate; ReporterWarn (lang "shrinkwrapWarning" [])]);
        [| repeat constructor].
      cbn. rewrite <- app_assoc. reflexivity.
    - apply (extends_by_events _ _ _ [CheckUpdate]); [reflexivity | repeat constructor]. }
  destruct Hpre as (w1 & Hwhen & Hflags1 & Hext1).
  erewrite bind_run by exact Hwhen.
  destruct (fetchRequestFromCwd_events E config lf [] false w1)
    as (req & w2 & Hfetch & Hflags2 & Hext2).
  erewrite bind_run by exact Hfetch.
  assert (Hsame : forall e, allowed (flags w2) e = allowed (flags w) e).
  { intros e. destruct Hflags2 as [-> | ->]; rewrite ?allowed_set_flat, Hflags1; reflexivity. }
  destruct (keeps_init_tail E config lf (flags w2) req w2 eq_refl) as [_ Hext3].
  eexists _, _. split; [apply surjective_pairing |].
  eapply extends_by_trans; [exact Hext1 |]. eapply extends_by_trans.
  - eapply extends_by_weaken; [| exact Hext2]. intros e (loc & ->). reflexivity.
  - eapply extends_by_weaken; [| exact Hext3]. intros e He. cbv beta in He.
    rewrite <- Hsame. assumption.
Qed.

(** X18. With [ignoreScripts] set, from the command line or through the
    config, [init] never starts the install scripts of the packages,
    whether it returns or throws. *)
Theorem init_ignores_scripts (E : Engines) (config : Config) (lf : Lockfile) (w : World) :
  ignoreScripts (flags w) = true ->
  exists out w' evs,
    init E config lf w = (out, w') /\
    trace w' = trace w ++ evs /\
    forall pats, ~ In (ScriptsInit pats) evs.
Proof.
  intros Hign. destruct (init_allowed E config lf w) as (out & w' & Hrun & evs & Htr & Hev).
  exists out, w', evs. split; [assumption |]. split; [assumption |].
  intros pats Hin. rewrite Forall_forall in Hev.
  specialize (Hev _ (proj2 (list_elem_of_In _ _) Hin)). cbn in Hev. rewrite Hign in Hev.
  discriminate Hev.
Qed.

(** X19. Under [--no-lockfile] or [--pure-lockfile], [init] writes neither
    the lockfile nor the integrity record and deletes nothing in the
    offline mirror, whether it returns or throws. *)
Theorem init_without_lockfile_writes (E : Engines) (config : Config) (lf : Lockfile) (w : World) :
  lockfile (flags w) = false \/ pureLockfile (flags w) = true ->
  exists out w' evs,
    init E config lf w = (out, w') /\
    trace w' = trace w ++ evs /\
    (forall pats lock, ~ In (IntegritySave pats lock) evs) /\
    (forall loc data, ~ In (WriteFilePreservingEol loc data) evs) /\
    (forall loc, ~ In (Unlink loc) evs).
Proof.
  intros Hoff. destruct (init_allowed E config lf w) as (out & w' & Hrun & evs & Htr & Hev).
  exists out, w', evs. split; [assumption |]. split; [assumption |].
  rewrite Forall_forall in Hev.
  assert (Hno : lockfile (flags w) && negb (pureLockfile (flags w)) = false)
    by (destruct Hoff as [-> | ->]; [reflexivity | apply andb_false_r]).
  repeat split; intros; intros Hin;
    specialize (Hev _ (proj2 (list_elem_of_In _ _) Hin)); cbn in Hev; congruence.
Qed.

(** X20. With [force] or [skipIntegrityCheck] set, [init] never consults
    the integrity checker: the install is not cut short. *)
Theorem init_forced_skips_check (E : Engines) (config : Config) (lf : Lockfile) (w : World) :
  force (flags w) = true \/ skipIntegrityCheck (flags w) = true ->
  exists out w' evs,
    init E config lf w = (out, w') /\
    trace w' = trace w ++ evs /\
    forall pats, ~ In (IntegrityCheckRun pats) evs.
Proof.
  intros Hforce. destruct (init_allowed E config lf w) as (out & w' & Hrun & evs & Htr & Hev).
  exists out, w', evs. split; [assumption |]. split; [assumption |].
  intros pats Hin. rewrite Forall_forall in Hev.
  specialize (Hev _ (proj2 (list_elem_of_In _ _) Hin)). cbn in Hev.
  destruct Hforce as [H | H]; rewrite H, ?orb_true_r in Hev; discriminate Hev.
Qed.

Lemma init_ignores_scripts_witness :
  let w := Sample.world Sample.scripts_off_flags Sample.disk in
  exists out w' evs,
    init Sample.engines (Sample.config false Sample.tidy) (Sample.lockfile_with []) w = (out, w') /\
    trace w' = trace w ++ evs /\
    forall pats, ~ In (ScriptsInit pats) evs.
Proof.
  intros w. apply init_ignores_scripts. reflexivity.
Defined.

Lemma init_without_lockfile_writes_witness :
  let w := Sample.world Sample.pure_flags Sample.disk in
  exists out w' evs,
    init Sample.engines (Sample.config false Sample.tidy) (Sample.lockfile_with []) w = (out, w') /\
    trace w' = trace w ++ evs /\
    (forall pats lock, ~ In (IntegritySave pats lock) evs) /\
    (forall loc data, ~ In (WriteFilePreservingEol loc data) evs) /\
    (forall loc, ~ In (Unlink loc) evs).
Proof.
  intros w. apply init_without_lockfile_writes. right. reflexivity.
Defined.

Lemma init_forced_skips_check_witness :
  let w := Sample.world Sample.frozen_force_flags Sample.disk in
  exists out w' evs,
    init Sample.engines (Sample.config false Sample.tidy) (Sample.lockfile_with []) w = (out, w') /\
    trace w' = trace w ++ evs /\
    forall pats, ~ In (IntegrityCheckRun pats) evs.
Proof.
  intros w. apply init_forced_skips_check. left. reflexivity.
Defined.

(** ** Hydrate, continued *)

Section HydrateEvents.

Variable E : Engines.
Variable config : Config.
Variable lf : Lockfile.

Lemma quiet_expandManifest (P : Event -> Prop) (mf : Manifest) :
  (forall loc, P (ReadManifest loc)) -> (forall i pkg, P (UpdateManifest i pkg)) ->
  quiet P (expandManifest E config mf).
Proof.
  intros HP1 HP2. unfold expandManifest.
  repeat first [ quiet_step | apply quiet_emit; auto ].
Qed.

(** The part of [hydrate] that follows the collection of the requests,
    but for [flatten]. *)
Lemma quiet_hydrate_fetch (P : Event -> Prop) (fetch : bool) :
  P FetcherInit -> P CompatibilityInit ->
  (forall loc, P (ReadManifest loc)) -> (forall i pkg, P (UpdateManifest i pkg)) ->
  quiet P
    (when fetch
       (emit FetcherInit ;;
        modify (fun w => set_resolver w (fetcher_init E (resolver w))) ;;
        emit CompatibilityInit ;;
        w <- get ;;
        for_of (getManifests E (resolver w)) (expandManifest E config))).
Proof.
  intros H1 H2 H3 H4. apply quiet_when.
  apply quiet_bind; [apply quiet_emit; assumption | intros _].
  apply quiet_bind; [apply quiet_modify; intros w; split; reflexivity | intros _].
  apply quiet_bind; [apply quiet_emit; assumption | intros _].
  apply quiet_bind; [apply quiet_get | intros w0].
  apply quiet_for_of. intros mf. apply quiet_expandManifest; assumption.
Qed.

(** X21. Whether it returns or throws, [hydrate] reads the root manifest,
    initialises the resolver, flattens, and fetches, checks and expands the
    manifests when asked to; it never links, never runs a script, never
    touches the integrity record or the lockfile, never deletes or creates
    a file itself.  Saving the root manifests in [flatten] is the one write
    to the working directory it can do. *)
Theorem hydrate_events (fetch ign : bool) (w : World) :
  exists out w',
    hydrate E config lf fetch ign w = (out, w') /\
    extends_by (fun e => hydrate_event e = true) w w'.
Proof.
  unfold hydrate.
  destruct (fetchRequestFromCwd_events E config lf [] ign w)
    as (req & w2 & Hfetch & _ & Hext2).
  erewrite bind_run by exact Hfetch.
  match goal with |- context [bind get ?k w2] =>
    assert (Hq : quiet (fun e => hydrate_event e = true) (bind get k))
  end.
  { apply quiet_bind; [apply quiet_get | intros w0].
    apply quiet_bind; [apply quiet_emit; reflexivity | intros _].
    apply quiet_bind; [apply quiet_modify; intros w1; split; reflexivity | intros _].
    apply quiet_bind; [apply events_flatten; intros; reflexivity | intros _].
    apply quiet_bind; [apply quiet_markIgnored | intros _].
    apply quiet_bind; [| intros _; apply quiet_ret].
    apply quiet_hydrate_fetch; intros; reflexivity. }
  destruct (Hq w2) as [_ Hext3].
  eexists _, _. split; [apply surjective_pairing |].
  eapply extends_by_trans; [| exact Hext3].
  eapply extends_by_weaken; [| exact Hext2]. intros e (loc & ->). reflexivity.
Qed.

(** X22. When flat mode is off once the requests are collected, neither
    set by a flag nor inherited from the root manifest, [hydrate] writes
    nothing to the working directory and asks nothing: it reads, resolves,
    fetches and expands only. *)
Theorem hydrate_reads_only (fetch ign : bool) (w w2 : World) (req : InstallCwdRequest) :
  fetchRequestFromCwd E config lf [] ign w = (Ok req, w2) ->
  flat (flags w2) = false ->
  exists out w',
    hydrate E config lf fetch ign w = (out, w') /\
    extends_by (fun e => reads_only e = true) w w'.
Proof.
  intros Hfetch Hflat. unfold hydrate.
  destruct (fetchRequestFromCwd_events E config lf [] ign w)
    as (req' & w2' & Hfetch' & _ & Hext2).
  rewrite Hfetch in Hfetch'. injection Hfetch' as <- <-.
  erewrite bind_run by exact Hfetch.
  match goal with |- context [bind get ?k w2] =>
    assert (Hq : keeps (flags w2) (fun e => reads_only e = true) (bind get k))
  end.
  { apply keeps_get. intros w0 Hfl.
    apply keeps_bind; [apply keeps_quiet, quiet_emit; reflexivity | intros _].
    apply keeps_bind;
      [apply keeps_quiet, quiet_modify; intros w1; split; reflexivity | intros _].
    apply keeps_bind.
    { unfold flatten. apply keeps_get. intros w1 Hfl1. rewrite Hfl1, Hflat.
      apply keeps_quiet, quiet_ret. }
    intros _. apply keeps_bind; [apply keeps_quiet, quiet_markIgnored | intros _].
    apply keeps_bind; [| intros _; apply keeps_quiet, quiet_ret].
    apply keeps_quiet, quiet_hydrate_fetch; intros; reflexivity. }
  destruct (Hq w2 eq_refl) as [_ Hext3].
  eexists _, _. split; [apply surjective_pairing |].
  eapply extends_by_trans; [| exact Hext3].
  eapply extends_by_weaken; [| exact Hext2]. intros e (loc & ->). reflexivity.
Qed.

End HydrateEvents.

Lemma hydrate_reads_only_witness :
  let w := Sample.world Sample.no_flags Sample.disk in
  exists out w',
    hydrate Sample.engines (Sample.config false Sample.tidy) (Sample.lockfile_with [])
      true false w = (out, w') /\
    extends_by (fun e => reads_only e = true) w w'.
Proof.
  intros w.
  eapply (hydrate_reads_only Sample.engines (Sample.config false Sample.tidy)
            (Sample.lockfile_with []) true false w).
  - vm_compute. reflexivity.
  - reflexivity.
Defined.

(** ** The up-to-date install *)

Section UpToDate.

Variable E : Engines.
Variable config : Config.
Variable lf : Lockfile.

Lemma bailout_up_to_date (pats : list string) (c : list (string * LockManifest)) (w : World) :
  cache lf = Some c ->
  skipIntegrityCheck (flags w) = false ->
  force (flags w) = false ->
  integrityMatches (integrityChecker_check E pats c (flags w)) = true ->
  frozenLockfile (flags w) = false \/
    missingPatterns (integrityChecker_check E pats c (flags w)) = [] ->
  existsb (fun f => String.eqb (fst f) (path.join (cwd config) (LOCKFILE_FILENAME E))) (files w)
    = true ->
  bailout E config lf pats w =
    (Ok true,
     set_trace w (trace w ++ [IntegrityCheckRun pats; ReporterSuccess (lang "upToDate" [])])).
Proof.
  intros Hcache Hskip Hforce Hmatch Hfrozen Hlock.
  unfold bailout. unfold bind at 1, get at 1.
  rewrite Hskip, Hforce, Hcache. cbn [orb].
  erewrite bind_run by reflexivity.
  assert (Hnot : frozenLockfile (flags w)
                 && (0 <? length (missingPatterns (integrityChecker_check E pats c (flags w))))%nat
                 = false)
    by (destruct Hfrozen as [-> | ->]; [reflexivity | apply andb_false_r]).
  rewrite Hnot.
  unfold bind at 1, fs.exists_ at 1. world_simpl. rewrite Hlock, Hmatch. cbn [andb].
  cbv [bind reporter.success emit modify ret]. world_simpl. rewrite <- app_assoc. reflexivity.
Qed.

Lemma fetchRequestFromCwd_stable_patterns excl ign w w1 req w2 req1 w3 :
  files w1 = files w -> flags w1 = flags w ->
  fetchRequestFromCwd E config lf excl ign w = (Ok req, w2) ->
  fetchRequestFromCwd E config lf excl ign w1 = (Ok req1, w3) ->
  patterns req1 = patterns req.
Proof.
  intros Hfiles Hflags Hrun Hrun1.
  assert (Hfind1 : find (manifest_exists config w1) (registries E)
                   = find (manifest_exists config w) (registries E))
    by (unfold manifest_exists; rewrite Hfiles; reflexivity).
  destruct (find (manifest_exists config w) (registries E)) as [r |] eqn:Hfind.
  - destruct (fetchRequestFromCwd_found E config lf excl ign w r Hfind)
      as (req' & w' & Hrun' & Hp & _).
    rewrite Hrun in Hrun'. injection Hrun' as <- <-.
    destruct (fetchRequestFromCwd_found E config lf excl ign w1 r Hfind1)
      as (req1' & w3' & Hrun1' & Hp1 & _).
    rewrite Hrun1 in Hrun1'. injection Hrun1' as <- <-.
    rewrite Hp1, Hp, Hflags. reflexivity.
  - rewrite (fetchRequestFromCwd_none E config lf excl ign w Hfind) in Hrun.
    rewrite (fetchRequestFromCwd_none E config lf excl ign w1 Hfind1) in Hrun1.
    injection Hrun as <- _. injection Hrun1 as <- _. reflexivity.
Qed.

(** X23. An install that finds itself up to date stops after the resolve
    step.  When neither [force] nor [skipIntegrityCheck] is set, flat mode
    is off, a lockfile was loaded and exists in [cwd], and the integrity
    check matches (without missing patterns under [frozenLockfile]), [init]
    returns the patterns of the root manifest after reporting [upToDate];
    it has fetched, linked, built and saved nothing, and the disk is as it
    was. *)
Theorem init_up_to_date (c : list (string * LockManifest)) (w w2 : World)
    (req : InstallCwdRequest) :
  cache lf = Some c ->
  skipIntegrityCheck (flags w) = false ->
  force (flags w) = false ->
  fetchRequestFromCwd E config lf [] false w = (Ok req, w2) ->
  flat (flags w2) = false ->
  integrityMatches (integrityChecker_check E (usedPatterns req) c (flags w2)) = true ->
  frozenLockfile (flags w) = false \/
    missingPatterns (integrityChecker_check E (usedPatterns req) c (flags w2)) = [] ->
  existsb (fun f => String.eqb (fst f) (path.join (cwd config) (LOCKFILE_FILENAME E))) (files w)
    = true ->
  exists w' evs,
    init E config lf w = (Ok (patterns req), w') /\
    trace w' = trace w ++ evs /\
    Forall (fun e => checks_only e = true) evs /\
    last evs = Some (ReporterSuccess (lang "upToDate" [])) /\
    files w' = files w.
Proof.
  intros Hcache Hskip Hforce Hfetch Hflat Hmatch Hfrozen Hlock.
  unfold init.
  erewrite bind_run by reflexivity.
  erewrite bind_run by reflexivity.
  cbv [checkUpdate emit modify]. world_simpl.
  set (shrinkwrap := existsb _ (files w)).
  set (w0 := set_trace w (trace w ++ [CheckUpdate])).
  assert (Hpre : exists w1 evs1,
            when shrinkwrap (reporter.warn (lang "shrinkwrapWarning" [])) w0 = (Ok tt, w1) /\
            files w1 = files w /\ flags w1 = flags w /\
            trace w1 = trace w ++ evs1 /\ Forall (fun e => checks_only e = true) evs1).
  { destruct shrinkwrap.
    - eexists _, [CheckUpdate; ReporterWarn (lang "shrinkwrapWarning" [])].
      split; [reflexivity |]. cbn. rewrite <- app_assoc. repeat split; repeat constructor.
    - eexists _, [CheckUpdate]. split; [reflexivity |]. repeat split; repeat constructor. }
  destruct Hpre as (w1 & evs1 & Hwhen & Hfiles1 & Hflags1 & Htr1 & Hev1).
  erewrite bind_run by exact Hwhen.
  destruct (fetchRequestFromCwd_stable E config lf [] false w w1 req w2 Hfiles1 Hflags1 Hfetch)
    as (req1 & w3 & Hfetch1 & Hused & Hflags3 & Hfiles3 & _).
  pose proof (fetchRequestFromCwd_stable_patterns [] false w w1 req w2 req1 w3
                Hfiles1 Hflags1 Hfetch Hfetch1) as Hpats.
  destruct (fetchRequestFromCwd_events E config lf [] false w1)
    as (req1' & w3' & Hfetch1' & _ & evs2 & Htr2 & Hev2).
  rewrite Hfetch1 in Hfetch1'. injection Hfetch1' as <- <-.
  destruct (fetchRequestFromCwd_flags E config lf [] false w req w2 Hfetch) as (Hfr & Hsk & Hfo & _).
  erewrite bind_run by exact Hfetch1.
  erewrite bind_run by reflexivity.
  erewrite bind_run by reflexivity.
  cbn [app length runSteps runStep].
  erewrite bind_run.
  2: { erewrite bind_run.
       2: { erewrite bind_run by reflexivity. erewrite bind_run by reflexivity.
            erewrite bind_run by reflexivity. erewrite bind_run by reflexivity.
            erewrite bind_run
              by (apply flatten_not_flat; world_simpl; rewrite Hflags3; exact Hflat).
            cbv [ret]. erewrite bind_run; [reflexivity |].
            apply (bailout_up_to_date _ c); world_simpl; rewrite ?Hflags3, ?Hfiles3, ?Hused;
              try assumption; congruence. }
       cbn [snd fst]. reflexivity. }
  cbn [snd fst flattenedTopLevelPatterns]. unfold preparePatterns. rewrite Hpats.
  eexists _, (evs1 ++ evs2 ++ _). split; [reflexivity |]. world_simpl.
  split; [rewrite Htr2, Htr1, <- !app_assoc; reflexivity |].
  split; [| split; [| assumption]].
  - apply Forall_app. split; [assumption |]. apply Forall_app. split.
    + eapply Forall_impl; [exact Hev2 |]. intros e (loc & ->). reflexivity.
    + repeat constructor.
  - rewrite !last_app. reflexivity.
Qed.

End UpToDate.

Lemma init_up_to_date_witness :
  let w := Sample.world Sample.no_flags Sample.locked_disk in
  let config := Sample.config false (Sample.deps_only [("a", "^1.0.0")]) in
  let lf := Sample.lockfile_with ["a@^1.0.0"] in
  exists req w2,
    fetchRequestFromCwd Sample.up_to_date_engines config lf [] false w = (Ok req, w2) /\
    patterns req = ["a@^1.0.0"] /\
    exists w' evs,
      init Sample.up_to_date_engines config lf w = (Ok (patterns req), w') /\
      trace w' = trace w ++ evs /\
      Forall (fun e => checks_only e = true) evs /\
      last evs = Some (ReporterSuccess (lang "upToDate" [])) /\
      files w' = files w.
Proof.
  intros w config lf. eexists _, _.
  split; [vm_compute; reflexivity |]. split; [reflexivity |].
  apply (init_up_to_date Sample.up_to_date_engines config lf (map Sample.lock_entry ["a@^1.0.0"]) w
           _ _ eq_refl eq_refl eq_refl eq_refl eq_refl eq_refl (or_introl eq_refl) eq_refl).
Defined.
